(** * flex-layout media-query core: a shallow embedding

    The breakpoint matching and change-coalescing engine of
    [src/lib/media-query]: [ChangeQueue] (change-queue.ts), [MatchMedia]
    (match-media.ts), [MediaMonitor] (media-monitor.ts) and [MediaService]
    (observable-media-service.ts).

    Callbacks are modelled by what they do to their receiver: a function that
    calls [_notify], [setTimeout] or a listener returns the trace of those
    calls next to the new state of the object it mutates. No callback calls
    back into the object that is calling it. *)

From Stdlib Require Import String List Bool Arith Lia Permutation.
From stdpp Require Import base option list strings gmap.

Local Open Scope string_scope.
Local Open Scope list_scope.

(** ** Data model *)

(** Modelled from the spec: the [BreakPoint] interface (break-point.ts is
    missing from the sources), the RangeDefinition of the data model:
    alias, query, suffix and the overlapping flag; an absent [overlapping] is
    [false], an absent [suffix] the empty string. *)
Module BreakPoint.
Record t : Type := mk {
  alias : string;
  suffix : string;
  overlapping : bool;
  mediaQuery : string
}.
End BreakPoint.

(** Modelled from the spec: the [MediaChange] class (media-change.ts is
    missing from the sources), the ChangeEvent of the data model: a query,
    the [matches] flag, and the optional alias and suffix, empty until the
    registry resolves them. *)
Module MediaChange.
Record t : Type := mk {
  matches : bool;
  mediaQuery : string;
  mqAlias : string;
  suffix : string
}.

(** [new MediaChange(matches, mediaQuery)] as match-media.ts calls it. *)
Definition new (matches : bool) (mediaQuery : string) : t :=
  mk matches mediaQuery "" "".
End MediaChange.

(** ** change-queue.ts *)

Module ChangeQueue.

(** What a call into the queue does to the outside: it calls [_notify]
    (with [null] when no activation was found) or arms a timer. *)
Inductive Effect : Type :=
| Notify (change : option MediaChange.t)
| SetTimeout.

Record t : Type := mk {
  enableAsync : bool;
  _breakpoints : list BreakPoint.t;
  _deactivated : list MediaChange.t;
  _activated : list MediaChange.t;
  _debouncing : bool
}.

(** [new ChangeQueue(_notify, _breakpoints)] *)
Definition new (breakpoints : list BreakPoint.t) : t :=
  mk false breakpoints [] [] false.

Definition set_enableAsync (b : bool) (q : t) : t :=
  mk b (_breakpoints q) (_deactivated q) (_activated q) (_debouncing q).

(** [_queueChanges]: push onto the buffer chosen by [change.matches]. *)
Definition _queueChanges (q : t) (change : MediaChange.t) : t :=
  if MediaChange.matches change
  then mk (enableAsync q) (_breakpoints q) (_deactivated q)
          (_activated q ++ [change]) (_debouncing q)
  else mk (enableAsync q) (_breakpoints q) (_deactivated q ++ [change])
          (_activated q) (_debouncing q).

(** [_findActivationFor]: the reducer keeps a result once it has one. *)
Definition _findActivationFor (activated : list MediaChange.t) (bp : BreakPoint.t)
  : option MediaChange.t :=
  fold_left
    (fun result change =>
       match result with
       | Some r => Some r
       | None =>
           if String.eqb (MediaChange.mediaQuery change) (BreakPoint.mediaQuery bp)
           then Some change else None
       end)
    activated None.

(** The reducer of [_announceActivation]: [change || _findActivationFor(bp)]. *)
Definition findFirstActivation (activated : list MediaChange.t)
    (change : option MediaChange.t) (bp : BreakPoint.t) : option MediaChange.t :=
  match change with
  | Some c => Some c
  | None => _findActivationFor activated bp
  end.

(** [_announceActivation]: one call of [_notify], then the buffer is emptied. *)
Definition _announceActivation (q : t) : t * list Effect :=
  (mk (enableAsync q) (_breakpoints q) (_deactivated q) [] (_debouncing q),
   [Notify (fold_left (findFirstActivation (_activated q)) (_breakpoints q) None)]).

(** [_announceDeactivations]: [_notify] for each, then the buffer is emptied. *)
Definition _announceDeactivations (q : t) : t * list Effect :=
  (mk (enableAsync q) (_breakpoints q) [] (_activated q) (_debouncing q),
   map (fun change => Notify (Some change)) (_deactivated q)).

(** The closure [processQueue] of [onMediaChange]: one flush. *)
Definition processQueue (q : t) : t * list Effect :=
  let (q1, out1) := _announceDeactivations q in
  let (q2, out2) := _announceActivation q1 in
  (mk (enableAsync q2) (_breakpoints q2) (_deactivated q2) (_activated q2) false,
   out1 ++ out2).

(** [this._debouncing = true] *)
Definition arm (q : t) : t :=
  mk (enableAsync q) (_breakpoints q) (_deactivated q) (_activated q) true.

Definition onMediaChange (q : t) (change : MediaChange.t) : t * list Effect :=
  let q1 := _queueChanges q change in
  if negb (_debouncing q1) then
    let q2 := arm q1 in
    if enableAsync q2 then (q2, [SetTimeout]) else processQueue q2
  else (q1, []).

(** The arguments [_notify] was called with, in call order. *)
Definition notified (out : list Effect) : list (option MediaChange.t) :=
  flat_map (fun e => match e with Notify c => [c] | SetTimeout => [] end) out.

Definition count_timers (out : list Effect) : nat :=
  length (List.filter (fun e => match e with SetTimeout => true | _ => false end) out).

(** The states the queue's own code leads to, statement by statement:
    [_queueChanges] at the head of [onMediaChange], the assignment
    [_debouncing = true], the flush [processQueue] (at once, or when the
    timer fires), and the owner's assignment to [enableAsync]. *)
Inductive reachable (breakpoints : list BreakPoint.t) : t -> Prop :=
| reach_new : reachable breakpoints (new breakpoints)
| reach_enableAsync q b :
    reachable breakpoints q -> reachable breakpoints (set_enableAsync b q)
| reach_queued q change :
    reachable breakpoints q -> reachable breakpoints (_queueChanges q change)
| reach_armed q :
    reachable breakpoints q -> reachable breakpoints (arm q)
| reach_flushed q :
    reachable breakpoints q -> reachable breakpoints (fst (processQueue q)).

(** Activations sit in [_activated], deactivations in [_deactivated]. *)
Definition buffers_sorted (q : t) : Prop :=
  Forall (fun c => MediaChange.matches c = true) (_activated q) /\
  Forall (fun c => MediaChange.matches c = false) (_deactivated q).

(** The spec's wording of the activation choice: the first range in
    registry order with a queued activation for its query, and for it the
    first such queued activation. *)
Definition has_activation (activated : list MediaChange.t) (bp : BreakPoint.t) : bool :=
  existsb (fun c => String.eqb (MediaChange.mediaQuery c) (BreakPoint.mediaQuery bp))
          activated.

Definition first_range_with_activation (breakpoints : list BreakPoint.t)
    (activated : list MediaChange.t) : option BreakPoint.t :=
  List.find (has_activation activated) breakpoints.

Definition spec_activation (breakpoints : list BreakPoint.t)
    (activated : list MediaChange.t) : option MediaChange.t :=
  match first_range_with_activation breakpoints activated with
  | Some bp =>
      List.find (fun c => String.eqb (MediaChange.mediaQuery c) (BreakPoint.mediaQuery bp))
                activated
  | None => None
  end.

(** The queue with other buffers, to compare flushes. *)
Definition with_activated (q : t) (activated : list MediaChange.t) : t :=
  mk (enableAsync q) (_breakpoints q) (_deactivated q) activated (_debouncing q).

Definition with_deactivated (q : t) (deactivated : list MediaChange.t) : t :=
  mk (enableAsync q) (_breakpoints q) deactivated (_activated q) (_debouncing q).

(** The activation events among the [_notify] calls of a flush. *)
Definition activations (calls : list (option MediaChange.t)) : list MediaChange.t :=
  flat_map (fun c => match c with
                     | Some e => if MediaChange.matches e then [e] else []
                     | None => []
                     end) calls.

End ChangeQueue.


(** ** match-media.ts *)

Module MatchMedia.

(** The browser as the adapter sees it: what [window.matchMedia(q).matches]
    reads now, and whether a list built by [window.matchMedia] has
    [addListener]. *)
Record Window : Type := mkWindow {
  media_matches : string -> bool;
  canListen : bool
}.

(** A media query flips: the browser reads [b] for [q] from now on. *)
Definition set_media (w : Window) (q : string) (b : bool) : Window :=
  mkWindow (fun q' => if String.eqb q' q then b else media_matches w q') (canListen w).

(** An [OnMediaChange] function, by identity. *)
Definition Callback : Type := nat.

(** The closure [onMQLEvent] that [registerQuery] builds: it keeps the
    callback and the query it was registered with. *)
Record Listener : Type := mkListener {
  callback : Callback;
  query : string
}.

(** A [MediaQueryList]: one built by [window.matchMedia], whose [matches] is
    read from the browser and whose listeners the browser calls, or the
    literal object [_buildMQL] falls back to, with a fixed [matches] and an
    [addListener] that does nothing. *)
Inductive MediaQueryList : Type :=
| Native (media : string) (listeners : list Listener)
| Fallback (matches : bool) (media : string).

Definition matches (w : Window) (mql : MediaQueryList) : bool :=
  match mql with
  | Native media _ => media_matches w media
  | Fallback b _ => b
  end.

Definition addListener (mql : MediaQueryList) (l : Listener) : MediaQueryList :=
  match mql with
  | Native media ls => Native media (ls ++ [l])
  | Fallback b media => Fallback b media
  end.

Definition listeners_of (mql : MediaQueryList) : list Listener :=
  match mql with
  | Native _ ls => ls
  | Fallback _ _ => []
  end.

(** What a call into the adapter does to the outside: [_buildMQL] makes a new
    list for a query, or a registered callback is called with a change. *)
Inductive Effect : Type :=
| BuildMQL (query : string)
| Call (cb : Callback) (change : MediaChange.t).

Record t : Type := mk {
  _registry : gmap string MediaQueryList
}.

(** [protected _registry = new Map<string, MediaQueryList>()] *)
Definition new : t := mk ∅.

(** [_buildMQL]; the style tag of [prepareQueryCSS] is not modelled. *)
Definition _buildMQL (w : Window) (query : string) : MediaQueryList :=
  if canListen w
  then Native query []
  else Fallback (String.eqb query "all" || String.eqb query "") query.

Definition isActive (w : Window) (mm : t) (mediaQuery : string) : bool :=
  match _registry mm !! mediaQuery with
  | Some mql => matches w mql
  | None => false
  end.

(** [onMQLEvent(e)]: [callback(new MediaChange(e.matches, mediaQuery))]. *)
Definition onMQLEvent (w : Window) (l : Listener) (e : MediaQueryList) : Effect :=
  Call (callback l) (MediaChange.new (matches w e) (query l)).

(** [registerQuery]: the empty string is falsy, so nothing happens for it. *)
Definition registerQuery (w : Window) (mm : t) (mediaQuery : string) (cb : Callback)
  : t * list Effect :=
  let onMQL := mkListener cb mediaQuery in
  if String.eqb mediaQuery "" then (mm, [])
  else
    let '(mql, built) :=
      match _registry mm !! mediaQuery with
      | Some mql => (mql, [])
      | None => (_buildMQL w mediaQuery, [BuildMQL mediaQuery])
      end in
    let mql' := addListener mql onMQL in
    (mk (<[mediaQuery := mql']> (_registry mm)),
     built ++ (if matches w mql' then [onMQLEvent w onMQL mql'] else [])).

(** The browser fires the change event of the list held for [q]: every
    listener added to it is called, in the order they were added. *)
Definition dispatch (w : Window) (mm : t) (q : string) : list Effect :=
  match _registry mm !! q with
  | Some mql => map (fun l => onMQLEvent w l mql) (listeners_of mql)
  | None => []
  end.

(** A series of [registerQuery] calls, with everything they did. *)
Fixpoint registerAll (w : Window) (mm : t) (calls : list (string * Callback))
  : t * list Effect :=
  match calls with
  | [] => (mm, [])
  | (q, cb) :: rest =>
      let (mm1, out1) := registerQuery w mm q cb in
      let (mm2, out2) := registerAll w mm1 rest in
      (mm2, out1 ++ out2)
  end.

(** The lists [_buildMQL] made, by query. *)
Definition built (out : list Effect) : list string :=
  flat_map (fun e => match e with BuildMQL q => [q] | Call _ _ => [] end) out.

(** The calls a callback received. *)
Definition received (cb : Callback) (out : list Effect) : list MediaChange.t :=
  flat_map (fun e => match e with
                     | Call cb' c => if Nat.eqb cb' cb then [c] else []
                     | BuildMQL _ => []
                     end) out.

(** The callbacks registered for [q] by a series of calls, in call order. *)
Definition registered_for (q : string) (calls : list (string * Callback)) : list Callback :=
  map snd (List.filter (fun c => String.eqb (fst c) q) calls).

(** What the query reads when a listener is registered for it: the list
    the adapter holds for it, or the one it is about to build. *)
Definition evaluate (w : Window) (mm : t) (q : string) : bool :=
  match _registry mm !! q with
  | Some mql => matches w mql
  | None => matches w (_buildMQL w q)
  end.

(** The list the adapter uses for a query: the one it holds, or a new one. *)
Definition list_for (w : Window) (mm : t) (q : string) : MediaQueryList :=
  match _registry mm !! q with
  | Some mql => mql
  | None => _buildMQL w q
  end.

(** A list with one listener added per callback, in order. *)
Definition attach (mql : MediaQueryList) (q : string) (cbs : list Callback)
  : MediaQueryList :=
  fold_left addListener (map (fun cb => mkListener cb q) cbs) mql.

End MatchMedia.


(** ** The registry and the alias injection the monitor relies on *)

(** Modelled from the spec: the [BreakPointRegistry] service
    (break-point-registry.ts is missing from the sources): the ordered
    list of ranges, [findByAlias] and [findByQuery] returning the first entry
    with that alias or query or none, and [overlappings], every entry flagged
    overlapping in registry order, computed anew at each call. *)
Module BreakPointRegistry.

Definition t : Type := list BreakPoint.t.

Definition items (r : t) : list BreakPoint.t := r.

Definition findByAlias (r : t) (alias : string) : option BreakPoint.t :=
  List.find (fun bp => String.eqb (BreakPoint.alias bp) alias) r.

Definition findByQuery (r : t) (query : string) : option BreakPoint.t :=
  List.find (fun bp => String.eqb (BreakPoint.mediaQuery bp) query) r.

Definition overlappings (r : t) : list BreakPoint.t :=
  List.filter BreakPoint.overlapping r.

End BreakPointRegistry.

(** Modelled from the spec: [mergeAlias] (utils/add-alias.ts is missing from
    the sources): the event carries the original's query and
    [matches], with alias and suffix taken from the range when there is one
    and left as they are otherwise. *)
Definition mergeAlias (dest : MediaChange.t) (source : option BreakPoint.t) : MediaChange.t :=
  match source with
  | Some bp =>
      MediaChange.mk (MediaChange.matches dest) (MediaChange.mediaQuery dest)
                     (BreakPoint.alias bp) (BreakPoint.suffix bp)
  | None => dest
  end.

(** ** rxjs: [BehaviorSubject] under [filter] and [map] *)

(** A [BehaviorSubject] holds its latest value; [next] stores the value and
    hands it to every subscriber in subscription order, [subscribe] hands the
    stored value to the new subscriber at once. A subscription made through
    [filter] and [map] is the subscriber with the chain of operators in
    front of it: [None] when a filter drops the value. *)
Module BehaviorSubject.

Record Subscription : Type := mkSubscription {
  subscriber : nat;
  operators : MediaChange.t -> option MediaChange.t
}.

Record t : Type := mk {
  value : MediaChange.t;
  observers : list Subscription
}.

Definition new (seed : MediaChange.t) : t := mk seed [].

(** One delivery: the subscriber whose [next] handler ran, and its argument. *)
Definition Delivery : Type := (nat * MediaChange.t)%type.

Definition deliver (v : MediaChange.t) (s : Subscription) : list Delivery :=
  match operators s v with
  | Some v' => [(subscriber s, v')]
  | None => []
  end.

Definition next (b : t) (v : MediaChange.t) : t * list Delivery :=
  (mk v (observers b), flat_map (deliver v) (observers b)).

Definition subscribe (b : t) (s : Subscription) : t * list Delivery :=
  (mk (value b) (observers b ++ [s]), deliver (value b) s).

(** What one subscriber was handed. *)
Definition delivered_to (who : nat) (out : list Delivery) : list MediaChange.t :=
  map snd (List.filter (fun d => Nat.eqb (fst d) who) out).

End BehaviorSubject.


(** ** media-monitor.ts *)

Module MediaMonitor.

(** A getter returns, or fails on [undefined.mediaQuery]. *)
Inductive result (A : Type) : Type :=
| Returns (a : A)
| TypeError.
Arguments Returns {A} a.
Arguments TypeError {A}.

(** The monitor's own fields; the injected [_matchMedia] is shared with
    every other consumer and is passed along with the browser it reads. *)
Record t : Type := mk {
  _breakpoints : BreakPointRegistry.t;
  _asyncQueue : ChangeQueue.t;
  _source : BehaviorSubject.t
}.

Definition breakpoints (m : t) : list BreakPoint.t :=
  BreakPointRegistry.items (_breakpoints m).

Definition activeOverlaps (w : MatchMedia.Window) (mm : MatchMedia.t) (m : t)
  : list BreakPoint.t :=
  let items := rev (BreakPointRegistry.overlappings (_breakpoints m)) in
  List.filter (fun bp => MatchMedia.isActive w mm (BreakPoint.mediaQuery bp)) items.

(** The body of the [forEach] in [active]: [found] is set once. *)
Definition active_visit (w : MatchMedia.Window) (mm : MatchMedia.t)
    (found : option BreakPoint.t) (bp : BreakPoint.t) : option BreakPoint.t :=
  if negb (String.eqb (BreakPoint.alias bp) "") then
    match found with
    | None => if MatchMedia.isActive w mm (BreakPoint.mediaQuery bp) then Some bp else None
    | Some f => Some f
    end
  else found.

Definition active (w : MatchMedia.Window) (mm : MatchMedia.t) (m : t)
  : result (option BreakPoint.t) :=
  let items := rev (breakpoints m) in
  let found := fold_left (active_visit w mm) items None in
  match found with
  | Some bp => Returns (Some bp)
  | None =>
      match breakpoints m with
      | first :: _ =>
          Returns (if MatchMedia.isActive w mm (BreakPoint.mediaQuery first)
                   then Some first else None)
      | [] => TypeError
      end
  end.

(** [findByAlias(alias) || findByQuery(alias)] *)
Definition lookup (r : BreakPointRegistry.t) (alias : string) : option BreakPoint.t :=
  match BreakPointRegistry.findByAlias r alias with
  | Some bp => Some bp
  | None => BreakPointRegistry.findByQuery r alias
  end.

Definition isActive (w : MatchMedia.Window) (mm : MatchMedia.t) (m : t) (alias : string)
  : bool :=
  let bp := lookup (_breakpoints m) alias in
  MatchMedia.isActive w mm
    (match bp with Some b => BreakPoint.mediaQuery b | None => alias end).

(** [_next]: a [null] change is dropped, any other goes to the subject. *)
Definition _next (m : t) (change : option MediaChange.t)
  : t * list BehaviorSubject.Delivery :=
  match change with
  | Some c =>
      let (s, out) := BehaviorSubject.next (_source m) c in
      (mk (_breakpoints m) (_asyncQueue m) s, out)
  | None => (m, [])
  end.

(** The queue's [_notify] is [_next]; it touches the subject only, so the
    calls of one flush are handed over in their order. *)
Fixpoint notify_all (m : t) (calls : list (option MediaChange.t))
  : t * list BehaviorSubject.Delivery :=
  match calls with
  | [] => (m, [])
  | c :: rest =>
      let (m1, out1) := _next m c in
      let (m2, out2) := notify_all m1 rest in
      (m2, out1 ++ out2)
  end.

(** The listener the monitor registers: [_asyncQueue.onMediaChange]. The
    third component counts the timers armed. *)
Definition onChange (m : t) (change : MediaChange.t)
  : t * list BehaviorSubject.Delivery * nat :=
  let (q, out) := ChangeQueue.onMediaChange (_asyncQueue m) change in
  let (m', ds) :=
    notify_all (mk (_breakpoints m) q (_source m)) (ChangeQueue.notified out) in
  (m', ds, ChangeQueue.count_timers out).

(** An armed timer fires: the flush of the monitor's queue. *)
Definition flush (m : t) : t * list BehaviorSubject.Delivery :=
  let (q, out) := ChangeQueue.processQueue (_asyncQueue m) in
  notify_all (mk (_breakpoints m) q (_source m)) (ChangeQueue.notified out).

Fixpoint onChange_all (m : t) (changes : list MediaChange.t)
  : t * list BehaviorSubject.Delivery * nat :=
  match changes with
  | [] => (m, [], 0)
  | c :: rest =>
      let '(m1, out1, n1) := onChange m c in
      let '(m2, out2, n2) := onChange_all m1 rest in
      (m2, out1 ++ out2, n1 + n2)
  end.

(** [_registerBreakpoints]: every range's query is registered with the
    monitor's listener [self]; what a registration announces at once is
    taken by the queue before the next one is made. *)
Fixpoint _registerBreakpoints (w : MatchMedia.Window) (self : MatchMedia.Callback)
    (items : list BreakPoint.t) (mm : MatchMedia.t) (m : t)
  : t * MatchMedia.t * list BehaviorSubject.Delivery * nat :=
  match items with
  | [] => (m, mm, [], 0)
  | bp :: rest =>
      let (mm1, out) := MatchMedia.registerQuery w mm (BreakPoint.mediaQuery bp) self in
      let '(m1, ds1, n1) := onChange_all m (MatchMedia.received self out) in
      let '(m2, mm2, ds2, n2) := _registerBreakpoints w self rest mm1 m1 in
      (m2, mm2, ds1 ++ ds2, n1 + n2)
  end.

(** The constructor. [mediaQuery0] is the query a [MediaChange] built with
    [matches] alone gets from its constructor, which is not among the
    sources. *)
Definition new (mediaQuery0 : string) (w : MatchMedia.Window) (self : MatchMedia.Callback)
    (r : BreakPointRegistry.t) (mm : MatchMedia.t)
  : t * MatchMedia.t * list BehaviorSubject.Delivery * nat :=
  let source := BehaviorSubject.new (MediaChange.new true mediaQuery0) in
  let queue := ChangeQueue.new (BreakPointRegistry.items r) in
  _registerBreakpoints w self (BreakPointRegistry.items r) mm (mk r queue source).

(** [observe(alias?)]: the operators put in front of a subscriber. A missing
    or empty alias is falsy and lets every change through. *)
Definition observe (m : t) (alias : option string) : MediaChange.t -> option MediaChange.t :=
  let bp := match alias with
            | Some a => lookup (_breakpoints m) a
            | None => None
            end in
  let mediaQuery := match bp with
                    | Some b => Some (BreakPoint.mediaQuery b)
                    | None => alias
                    end in
  fun change =>
    let keep := match alias, mediaQuery with
                | Some a, Some q =>
                    if String.eqb a "" then true
                    else String.eqb (MediaChange.mediaQuery change) q
                | _, _ => true
                end in
    if keep then Some (mergeAlias change bp) else None.

(** [observe(alias).subscribe(next)] *)
Definition subscribe (m : t) (alias : option string) (who : nat)
  : t * list BehaviorSubject.Delivery :=
  let (s, out) :=
    BehaviorSubject.subscribe (_source m)
      (BehaviorSubject.mkSubscription who (observe m alias)) in
  (mk (_breakpoints m) (_asyncQueue m) s, out).

End MediaMonitor.


(** ** observable-media-service.ts *)

Module MediaService.

(** The service's own fields; [mediaWatcher] is the shared [MatchMedia],
    passed along as for the monitor, and [observable$] is [_buildObservable]
    over [source]. *)
Record t : Type := mk {
  breakpoints : BreakPointRegistry.t;
  _asyncQueue : ChangeQueue.t;
  source : BehaviorSubject.t
}.

Definition _findByAlias (s : t) (alias : string) : option BreakPoint.t :=
  BreakPointRegistry.findByAlias (breakpoints s) alias.

Definition _findByQuery (s : t) (query : string) : option BreakPoint.t :=
  BreakPointRegistry.findByQuery (breakpoints s) query.

Definition _toMediaQuery (s : t) (query : string) : string :=
  match (match _findByAlias s query with
         | Some bp => Some bp
         | None => _findByQuery s query
         end) with
  | Some bp => BreakPoint.mediaQuery bp
  | None => query
  end.

Definition isActive (w : MatchMedia.Window) (mm : MatchMedia.t) (s : t) (alias : string)
  : bool :=
  MatchMedia.isActive w mm (_toMediaQuery s alias).

Definition addAliasInfo (s : t) (change : MediaChange.t) : MediaChange.t :=
  mergeAlias change (_findByQuery s (MediaChange.mediaQuery change)).

(** [_buildObservable]: [filter(change => change.matches === true)], then
    [map(addAliasInfo)]. *)
Definition _buildObservable (s : t) : MediaChange.t -> option MediaChange.t :=
  fun change =>
    if Bool.eqb (MediaChange.matches change) true
    then Some (addAliasInfo s change)
    else None.

(** [subscribe(next)]: a subscription to [observable$]. *)
Definition subscribe (s : t) (who : nat) : t * list BehaviorSubject.Delivery :=
  let (src, out) :=
    BehaviorSubject.subscribe (source s)
      (BehaviorSubject.mkSubscription who (_buildObservable s)) in
  (mk (breakpoints s) (_asyncQueue s) src, out).

Definition _next (s : t) (change : option MediaChange.t)
  : t * list BehaviorSubject.Delivery :=
  match change with
  | Some c =>
      let (src, out) := BehaviorSubject.next (source s) c in
      (mk (breakpoints s) (_asyncQueue s) src, out)
  | None => (s, [])
  end.

Fixpoint notify_all (s : t) (calls : list (option MediaChange.t))
  : t * list BehaviorSubject.Delivery :=
  match calls with
  | [] => (s, [])
  | c :: rest =>
      let (s1, out1) := _next s c in
      let (s2, out2) := notify_all s1 rest in
      (s2, out1 ++ out2)
  end.

(** A run of change events emitted into the stream, one [_next] each. *)
Definition emit_all (s : t) (changes : list MediaChange.t)
  : t * list BehaviorSubject.Delivery :=
  notify_all s (map Some changes).

Definition onChange (s : t) (change : MediaChange.t)
  : t * list BehaviorSubject.Delivery * nat :=
  let (q, out) := ChangeQueue.onMediaChange (_asyncQueue s) change in
  let (s', ds) :=
    notify_all (mk (breakpoints s) q (source s)) (ChangeQueue.notified out) in
  (s', ds, ChangeQueue.count_timers out).

Definition flush (s : t) : t * list BehaviorSubject.Delivery :=
  let (q, out) := ChangeQueue.processQueue (_asyncQueue s) in
  notify_all (mk (breakpoints s) q (source s)) (ChangeQueue.notified out).

Fixpoint onChange_all (s : t) (changes : list MediaChange.t)
  : t * list BehaviorSubject.Delivery * nat :=
  match changes with
  | [] => (s, [], 0)
  | c :: rest =>
      let '(s1, out1, n1) := onChange s c in
      let '(s2, out2, n2) := onChange_all s1 rest in
      (s2, out1 ++ out2, n1 + n2)
  end.

Fixpoint _registerBreakPoints (w : MatchMedia.Window) (self : MatchMedia.Callback)
    (items : list BreakPoint.t) (mm : MatchMedia.t) (s : t)
  : t * MatchMedia.t * list BehaviorSubject.Delivery * nat :=
  match items with
  | [] => (s, mm, [], 0)
  | bp :: rest =>
      let (mm1, out) := MatchMedia.registerQuery w mm (BreakPoint.mediaQuery bp) self in
      let '(s1, ds1, n1) := onChange_all s (MatchMedia.received self out) in
      let '(s2, mm2, ds2, n2) := _registerBreakPoints w self rest mm1 s1 in
      (s2, mm2, ds1 ++ ds2, n1 + n2)
  end.

(** The constructor; [mediaQuery0] as for the monitor. *)
Definition new (mediaQuery0 : string) (w : MatchMedia.Window) (self : MatchMedia.Callback)
    (r : BreakPointRegistry.t) (mm : MatchMedia.t)
  : t * MatchMedia.t * list BehaviorSubject.Delivery * nat :=
  let queue := ChangeQueue.new (BreakPointRegistry.items r) in
  let src := BehaviorSubject.new (MediaChange.new true mediaQuery0) in
  _registerBreakPoints w self (BreakPointRegistry.items r) mm (mk r queue src).

End MediaService.


(** ** The getters as the specification words them *)

Module Spec.

(** [active]: the highest-priority (lowest registry index) currently-true
    range not flagged overlapping; failing that the lowest-priority range
    when it is currently true; none otherwise. *)
Definition active (w : MatchMedia.Window) (mm : MatchMedia.t) (r : BreakPointRegistry.t)
  : option BreakPoint.t :=
  match List.find (fun bp => negb (BreakPoint.overlapping bp)
                             && MatchMedia.isActive w mm (BreakPoint.mediaQuery bp)) r with
  | Some bp => Some bp
  | None =>
      match List.find (fun bp => MatchMedia.isActive w mm (BreakPoint.mediaQuery bp))
                      (firstn 1 (rev r)) with
      | Some bp => Some bp
      | None => None
      end
  end.

(** [activeOverlaps]: the overlapping ranges currently true, in registry
    order. *)
Definition activeOverlaps (w : MatchMedia.Window) (mm : MatchMedia.t)
    (r : BreakPointRegistry.t) : list BreakPoint.t :=
  List.filter (fun bp => BreakPoint.overlapping bp
                         && MatchMedia.isActive w mm (BreakPoint.mediaQuery bp)) r.

End Spec.

(** The range [active] settles on in its loop: true now, with an alias. *)
Definition named_and_true (w : MatchMedia.Window) (mm : MatchMedia.t) (bp : BreakPoint.t)
  : bool :=
  negb (String.eqb (BreakPoint.alias bp) "")
  && MatchMedia.isActive w mm (BreakPoint.mediaQuery bp).

(** The values [_next] hands to the subject: every call but the [null] ones. *)
Definition pushed (calls : list (option MediaChange.t)) : list MediaChange.t :=
  flat_map (fun c => match c with Some e => [e] | None => [] end) calls.

(** What the subscribers of a subject are handed for a run of values. *)
Definition fan_out (observers : list BehaviorSubject.Subscription)
    (values : list MediaChange.t) : list BehaviorSubject.Delivery :=
  flat_map (fun v => flat_map (BehaviorSubject.deliver v) observers) values.

(** ** Scenarios

    Registries, browsers and objects the properties below are tried on. *)

(** Four ranges in registry order, and a queue that has buffered, within
    one turn, the activation of the fourth and then that of the second. *)
Definition four_ranges : list BreakPoint.t :=
  [BreakPoint.mk "r1" "R1" false "Q1"; BreakPoint.mk "r2" "R2" false "Q2";
   BreakPoint.mk "r3" "R3" false "Q3"; BreakPoint.mk "r4" "R4" false "Q4"].

Definition queue_r4_r2 : ChangeQueue.t :=
  let q0 := ChangeQueue.set_enableAsync true (ChangeQueue.new four_ranges) in
  let q1 := fst (ChangeQueue.onMediaChange q0 (MediaChange.new true "Q4")) in
  fst (ChangeQueue.onMediaChange q1 (MediaChange.new true "Q2")).

(** Two ranges, and a queue that has buffered within one turn the
    deactivation of the second, its activation, and the activation of the
    first. *)
Definition two_ranges : list BreakPoint.t :=
  [BreakPoint.mk "sm" "Sm" false "Q1"; BreakPoint.mk "md" "Md" false "Q2"].

Definition queue_off_on_q2 : ChangeQueue.t :=
  let q0 := ChangeQueue.set_enableAsync true (ChangeQueue.new two_ranges) in
  let q1 := fst (ChangeQueue.onMediaChange q0 (MediaChange.new false "Q2")) in
  let q2 := fst (ChangeQueue.onMediaChange q1 (MediaChange.new true "Q2")) in
  fst (ChangeQueue.onMediaChange q2 (MediaChange.new true "Q1")).

(** A browser in which "Q1" and the empty query read true. *)
Definition window_q1 : MatchMedia.Window :=
  MatchMedia.mkWindow (fun q => String.eqb q "Q1" || String.eqb q "") true.

(** Two ranges true at once in the browser, the second flagged overlapping
    in [ranges_lg_web], and the monitor constructed over them. *)
Definition ranges_lg_web : list BreakPoint.t :=
  [BreakPoint.mk "lg" "Lg" false "Q1"; BreakPoint.mk "web" "Web" true "Q2"].

Definition ranges_gt : list BreakPoint.t :=
  [BreakPoint.mk "gt-xs" "GtXs" true "Q1"; BreakPoint.mk "gt-sm" "GtSm" true "Q2"].

Definition window_q1_q2 : MatchMedia.Window :=
  MatchMedia.mkWindow (fun q => String.eqb q "Q1" || String.eqb q "Q2") true.

Definition monitor_over (r : list BreakPoint.t) : MediaMonitor.t * MatchMedia.t :=
  let '(m, mm, _, _) := MediaMonitor.new "all" window_q1_q2 1 r MatchMedia.new in
  (m, mm).

(** A monitor over [two_ranges] with one subscriber of the whole stream, at
    the flush that follows the deactivation of "Q1". *)
Definition monitor_at_flush : MediaMonitor.t :=
  let m0 := MediaMonitor.mk two_ranges (ChangeQueue.new two_ranges)
              (BehaviorSubject.new (MediaChange.new true "all")) in
  let m1 := fst (MediaMonitor.subscribe m0 None 5) in
  MediaMonitor.mk two_ranges
    (ChangeQueue.arm (ChangeQueue._queueChanges (MediaMonitor._asyncQueue m1)
                        (MediaChange.new false "Q1")))
    (MediaMonitor._source m1).

(** The service over [two_ranges] in a browser where nothing is true, with
    "all" as the query of the seed event. *)
Definition window_none : MatchMedia.Window :=
  MatchMedia.mkWindow (fun _ => false) true.

Definition service_two_ranges : MediaService.t :=
  let '(s, _, _, _) := MediaService.new "all" window_none 1 two_ranges MatchMedia.new in
  s.

(** The specification's scenario: "sm" before the overlapping "gt-sm", a
    monitor with one subscriber of the whole stream and a queue switched to
    deferred flushes. *)
Definition ranges_sm_gtsm : list BreakPoint.t :=
  [BreakPoint.mk "sm" "Sm" false "Q1"; BreakPoint.mk "gt-sm" "GtSm" true "Q2"].

Definition monitor_deferred : MediaMonitor.t :=
  let '(m0, _, _, _) :=
    MediaMonitor.new "all" window_none 1 ranges_sm_gtsm MatchMedia.new in
  let m1 := fst (MediaMonitor.subscribe m0 None 4) in
  MediaMonitor.mk (MediaMonitor._breakpoints m1)
    (ChangeQueue.set_enableAsync true (MediaMonitor._asyncQueue m1))
    (MediaMonitor._source m1).

(** ** The queue over time, and the rest of the wiring *)

(** The queue together with the raw changes that came in since its last
    flush, in arrival order: the states of [ChangeQueue.reachable], with the
    arrivals written down. *)
Inductive arrived_since_flush (breakpoints : list BreakPoint.t)
  : ChangeQueue.t -> list MediaChange.t -> Prop :=
| arrived_new :
    arrived_since_flush breakpoints (ChangeQueue.new breakpoints) []
| arrived_enableAsync q arrived b :
    arrived_since_flush breakpoints q arrived ->
    arrived_since_flush breakpoints (ChangeQueue.set_enableAsync b q) arrived
| arrived_queued q arrived change :
    arrived_since_flush breakpoints q arrived ->
    arrived_since_flush breakpoints (ChangeQueue._queueChanges q change)
                        (arrived ++ [change])
| arrived_armed q arrived :
    arrived_since_flush breakpoints q arrived ->
    arrived_since_flush breakpoints (ChangeQueue.arm q) arrived
| arrived_flushed q arrived :
    arrived_since_flush breakpoints q arrived ->
    arrived_since_flush breakpoints (fst (ChangeQueue.processQueue q)) [].

(** A queue over [two_ranges] that has buffered, within one turn, the
    deactivation of "Q2" and then its activation, and nothing else. *)
Definition queue_off_on_pair : ChangeQueue.t :=
  let q0 := ChangeQueue.set_enableAsync true (ChangeQueue.new two_ranges) in
  let q1 := fst (ChangeQueue.onMediaChange q0 (MediaChange.new false "Q2")) in
  fst (ChangeQueue.onMediaChange q1 (MediaChange.new true "Q2")).

(** A burst of raw changes, one [onMediaChange] each. *)
Fixpoint onMediaChange_all (q : ChangeQueue.t) (changes : list MediaChange.t)
  : ChangeQueue.t * list ChangeQueue.Effect :=
  match changes with
  | [] => (q, [])
  | c :: rest =>
      let (q1, out1) := ChangeQueue.onMediaChange q c in
      let (q2, out2) := onMediaChange_all q1 rest in
      (q2, out1 ++ out2)
  end.

(** Nothing buffered and no flush pending. *)
Definition idle (q : ChangeQueue.t) : Prop :=
  ChangeQueue._deactivated q = [] /\ ChangeQueue._activated q = [] /\
  ChangeQueue._debouncing q = false.

(** Some range of the list has this query. *)
Definition knows (bps : list BreakPoint.t) (query : string) : bool :=
  existsb (fun bp => String.eqb query (BreakPoint.mediaQuery bp)) bps.

(** What comes out of the queue for one change flushed by itself: a
    deactivation always, an activation when a range has its query. *)
Definition let_through (bps : list BreakPoint.t) (c : MediaChange.t) : list MediaChange.t :=
  if MediaChange.matches c
  then (if knows bps (MediaChange.mediaQuery c) then [c] else [])
  else [c].

(** The queue with the timers its [setTimeout] calls have armed. A raw change
    comes in, an armed timer fires and runs [processQueue], or the owner
    assigns [enableAsync]. *)
Module QueueRun.

Record t : Type := mk {
  queue : ChangeQueue.t;
  timers : nat
}.

Inductive step : t -> t -> Prop :=
| step_change r change :
    step r (mk (fst (ChangeQueue.onMediaChange (queue r) change))
               (timers r + ChangeQueue.count_timers
                             (snd (ChangeQueue.onMediaChange (queue r) change))))
| step_timer r n :
    timers r = S n ->
    step r (mk (fst (ChangeQueue.processQueue (queue r))) n)
| step_enableAsync r b :
    step r (mk (ChangeQueue.set_enableAsync b (queue r)) (timers r)).

Inductive runs (breakpoints : list BreakPoint.t) : t -> Prop :=
| runs_new : runs breakpoints (mk (ChangeQueue.new breakpoints) 0)
| runs_step r r' : runs breakpoints r -> step r r' -> runs breakpoints r'.

End QueueRun.

(** The adapters that [registerQuery] calls lead to, in one browser. *)
Inductive adapter_reachable (w : MatchMedia.Window) : MatchMedia.t -> Prop :=
| adapter_new : adapter_reachable w MatchMedia.new
| adapter_registered mm q cb :
    adapter_reachable w mm ->
    adapter_reachable w (fst (MatchMedia.registerQuery w mm q cb)).

(** What a list built in browser [w] for [q] reads in the browser's later
    state [w']: the browser's answer, or the fixed answer of the fallback. *)
Definition reads (w w' : MatchMedia.Window) (q : string) : bool :=
  if MatchMedia.canListen w
  then MatchMedia.media_matches w' q
  else String.eqb q "all" || String.eqb q "".

(** The callback calls among the effects of the adapter, in call order. *)
Definition calls_of (out : list MatchMedia.Effect)
  : list (MatchMedia.Callback * MediaChange.t) :=
  flat_map (fun e => match e with
                     | MatchMedia.Call cb c => [(cb, c)]
                     | MatchMedia.BuildMQL _ => []
                     end) out.

(** The registrations the constructors make: each range's query, with the
    one listener. *)
Definition registrations (self : MatchMedia.Callback) (items : list BreakPoint.t)
  : list (string * MatchMedia.Callback) :=
  map (fun bp => (BreakPoint.mediaQuery bp, self)) items.

(** The ranges whose registration announces an activation at once. *)
Definition true_at_registration (w : MatchMedia.Window) (mm : MatchMedia.t)
    (items : list BreakPoint.t) : list BreakPoint.t :=
  List.filter (fun bp => negb (String.eqb (BreakPoint.mediaQuery bp) "")
                         && MatchMedia.evaluate w mm (BreakPoint.mediaQuery bp)) items.

(** The activations the constructor's registrations announce. *)
Definition announced (w : MatchMedia.Window) (mm : MatchMedia.t)
    (items : list BreakPoint.t) : list MediaChange.t :=
  map (fun bp => MediaChange.new true (BreakPoint.mediaQuery bp))
      (true_at_registration w mm items).

(** The service seen as a monitor: the same three fields. *)
Definition as_monitor (s : MediaService.t) : MediaMonitor.t :=
  MediaMonitor.mk (MediaService.breakpoints s) (MediaService._asyncQueue s)
                  (MediaService.source s).

(** mock/mock-media-monitor.ts: the constructor of [MockMediaMonitor] calls
    the one of [MediaMonitor], then assigns [_asyncQueue.enableAsync]. *)
Module MockMediaMonitor.

Definition new (mediaQuery0 : string) (w : MatchMedia.Window) (self : MatchMedia.Callback)
    (r : BreakPointRegistry.t) (mm : MatchMedia.t)
  : MediaMonitor.t * MatchMedia.t * list BehaviorSubject.Delivery * nat :=
  let '(m, mm', ds, n) := MediaMonitor.new mediaQuery0 w self r mm in
  (MediaMonitor.mk (MediaMonitor._breakpoints m)
     (ChangeQueue.set_enableAsync false (MediaMonitor._asyncQueue m))
     (MediaMonitor._source m),
   mm', ds, n).

End MockMediaMonitor.

(** A monitor over [two_ranges] as its constructor leaves it when nothing is
    true, and a queue over them switched to deferred flushes. *)
Definition monitor_idle : MediaMonitor.t :=
  MediaMonitor.mk two_ranges (ChangeQueue.new two_ranges)
    (BehaviorSubject.new (MediaChange.new true "all")).

Definition queue_deferring : ChangeQueue.t :=
  ChangeQueue.set_enableAsync true (ChangeQueue.new two_ranges).

(** A registry in which two ranges share the query "Q1". *)
Definition ranges_shared_query : list BreakPoint.t :=
  [BreakPoint.mk "tablet" "Tablet" false "Q1";
   BreakPoint.mk "tablet.landscape" "TabletLandscape" false "Q1";
   BreakPoint.mk "web" "Web" true "Q2"].

(** * Properties *)

(** ** The change queue *)

Section ChangeQueueFacts.

Import ChangeQueue.

Lemma fold_found (activated : list MediaChange.t) (bp : BreakPoint.t) (r : MediaChange.t) :
  fold_left
    (fun result change =>
       match result with
       | Some r' => Some r'
       | None =>
           if String.eqb (MediaChange.mediaQuery change) (BreakPoint.mediaQuery bp)
           then Some change else None
       end) activated (Some r) = Some r.
Proof. induction activated as [|c rest IH]; simpl; auto. Qed.

Lemma _findActivationFor_find (activated : list MediaChange.t) (bp : BreakPoint.t) :
  _findActivationFor activated bp =
  List.find (fun c => String.eqb (MediaChange.mediaQuery c) (BreakPoint.mediaQuery bp))
            activated.
Proof.
  unfold _findActivationFor.
  induction activated as [|c rest IH]; simpl; [reflexivity|].
  destruct (String.eqb _ _); [apply fold_found | exact IH].
Qed.

Lemma find_has_activation (activated : list MediaChange.t) (bp : BreakPoint.t) :
  has_activation activated bp = false <->
  List.find (fun c => String.eqb (MediaChange.mediaQuery c) (BreakPoint.mediaQuery bp))
            activated = None.
Proof.
  unfold has_activation.
  induction activated as [|c rest IH]; simpl; [tauto|].
  destruct (String.eqb _ _); simpl; [split; discriminate | exact IH].
Qed.

Lemma fold_chosen (activated : list MediaChange.t) (bps : list BreakPoint.t)
    (c : MediaChange.t) :
  fold_left (findFirstActivation activated) bps (Some c) = Some c.
Proof. induction bps as [|bp rest IH]; simpl; auto. Qed.

(** The reducers of [_announceActivation] compute the specification's
    choice. *)
Lemma announce_spec (bps : list BreakPoint.t) (activated : list MediaChange.t) :
  fold_left (findFirstActivation activated) bps None = spec_activation bps activated.
Proof.
  unfold spec_activation, first_range_with_activation.
  induction bps as [|bp rest IH]; simpl; [reflexivity|].
  rewrite _findActivationFor_find.
  destruct (has_activation activated bp) eqn:Hbp.
  - destruct (List.find _ activated) as [c|] eqn:Hc.
    + apply fold_chosen.
    + apply find_has_activation in Hc. congruence.
  - apply find_has_activation in Hbp. rewrite Hbp. exact IH.
Qed.

Lemma processQueue_notified (q : t) :
  notified (snd (processQueue q)) =
  map Some (_deactivated q) ++ [spec_activation (_breakpoints q) (_activated q)].
Proof.
  unfold processQueue, notified. simpl.
  rewrite flat_map_app. simpl. rewrite announce_spec. f_equal.
  induction (_deactivated q) as [|d rest IH]; simpl; [reflexivity|].
  f_equal. exact IH.
Qed.

Lemma reachable_invariant (bps : list BreakPoint.t) (q : t) :
  reachable bps q -> buffers_sorted q /\ _breakpoints q = bps.
Proof.
  unfold buffers_sorted.
  induction 1 as [|q b _ IH|q c _ IH|q _ IH|q _ IH]; simpl.
  - repeat split; constructor.
  - exact IH.
  - destruct IH as [[Ha Hd] Hb]. unfold _queueChanges.
    destruct (MediaChange.matches c) eqn:Hc; simpl; repeat split; auto;
      apply Forall_app; split; auto.
  - exact IH.
  - destruct IH as [[Ha Hd] Hb]. repeat split; auto; constructor.
Qed.

(** A call of [onMediaChange] keeps the queue among the reachable states. *)
Lemma onMediaChange_reachable (bps : list BreakPoint.t) (q : t) (c : MediaChange.t) :
  reachable bps q -> reachable bps (fst (onMediaChange q c)).
Proof.
  intros Hq. unfold onMediaChange.
  destruct (negb _); simpl.
  - destruct (enableAsync _).
    + apply reach_armed, reach_queued, Hq.
    + apply reach_flushed, reach_armed, reach_queued, Hq.
  - apply reach_queued, Hq.
Qed.

(** With [enableAsync] off and no flush pending, [onMediaChange] is the
    flush of the queue holding the one change. *)
Lemma onMediaChange_sync (q : t) (c : MediaChange.t) :
  enableAsync q = false -> _debouncing q = false ->
  onMediaChange q c = processQueue (arm (_queueChanges q c)).
Proof.
  intros Ha Hd. unfold onMediaChange.
  assert (Hd' : _debouncing (_queueChanges q c) = false).
  { unfold _queueChanges. destruct (MediaChange.matches c); exact Hd. }
  assert (Ha' : enableAsync (arm (_queueChanges q c)) = false).
  { unfold _queueChanges. destruct (MediaChange.matches c); exact Ha. }
  rewrite Hd', Ha'. reflexivity.
Qed.

Lemma activations_app (xs ys : list (option MediaChange.t)) :
  activations (xs ++ ys) = activations xs ++ activations ys.
Proof. unfold activations. apply flat_map_app. Qed.

Lemma activations_deactivated (ds : list MediaChange.t) :
  Forall (fun c => MediaChange.matches c = false) ds ->
  activations (map Some ds) = [].
Proof.
  induction 1 as [|d rest Hd _ IH]; simpl; [reflexivity|].
  rewrite Hd. exact IH.
Qed.

Lemma spec_activation_inv (bps : list BreakPoint.t) (activated : list MediaChange.t)
    (a : MediaChange.t) :
  spec_activation bps activated = Some a ->
  exists bp, first_range_with_activation bps activated = Some bp /\
             MediaChange.mediaQuery a = BreakPoint.mediaQuery bp /\ In a activated.
Proof.
  unfold spec_activation.
  destruct (first_range_with_activation bps activated) as [bp|]; [|discriminate].
  intros Hfind. exists bp. split; [reflexivity|].
  apply find_some in Hfind. destruct Hfind as [Hin Heq].
  apply String.eqb_eq in Heq. auto.
Qed.

Lemma spec_activation_some (bps : list BreakPoint.t) (activated : list MediaChange.t)
    (bp : BreakPoint.t) :
  first_range_with_activation bps activated = Some bp ->
  exists a, spec_activation bps activated = Some a /\
            MediaChange.mediaQuery a = BreakPoint.mediaQuery bp.
Proof.
  intros Hbp. unfold spec_activation. rewrite Hbp.
  unfold first_range_with_activation in Hbp. apply find_some in Hbp.
  destruct Hbp as [_ Hhas].
  destruct (List.find _ activated) as [a|] eqn:Ha.
  - exists a. split; [reflexivity|].
    apply find_some in Ha. apply String.eqb_eq, Ha.
  - apply find_has_activation in Ha. congruence.
Qed.

Lemma has_activation_perm (act act' : list MediaChange.t) (bp : BreakPoint.t) :
  Permutation act act' -> has_activation act bp = has_activation act' bp.
Proof.
  unfold has_activation.
  induction 1 as [|x l l' _ IH|x y l|l l' l'' _ IH1 _ IH2]; simpl.
  - reflexivity.
  - rewrite IH. reflexivity.
  - destruct (String.eqb _ _), (String.eqb _ _); reflexivity.
  - congruence.
Qed.

Lemma first_range_perm (bps : list BreakPoint.t) (act act' : list MediaChange.t) :
  Permutation act act' ->
  first_range_with_activation bps act = first_range_with_activation bps act'.
Proof.
  intros Hp. unfold first_range_with_activation.
  induction bps as [|bp rest IH]; simpl; [reflexivity|].
  rewrite (has_activation_perm act act' bp Hp), IH. reflexivity.
Qed.

Lemma spec_activation_query_perm (bps : list BreakPoint.t) (act act' : list MediaChange.t) :
  Permutation act act' ->
  option_map MediaChange.mediaQuery (spec_activation bps act) =
  option_map MediaChange.mediaQuery (spec_activation bps act').
Proof.
  intros Hp.
  destruct (first_range_with_activation bps act) as [bp|] eqn:Hbp.
  - destruct (spec_activation_some _ _ _ Hbp) as [a [Ha Hq]].
    rewrite (first_range_perm bps act act' Hp) in Hbp.
    destruct (spec_activation_some _ _ _ Hbp) as [a' [Ha' Hq']].
    rewrite Ha, Ha'. simpl. congruence.
  - unfold spec_activation. rewrite <- (first_range_perm bps act act' Hp), Hbp.
    reflexivity.
Qed.

End ChangeQueueFacts.

Section Flush.

Import ChangeQueue.

(** The activations of a flush: the specification's choice, if there is one. *)
Lemma flush_activations (q : t) :
  buffers_sorted q ->
  activations (notified (snd (processQueue q))) =
  match spec_activation (_breakpoints q) (_activated q) with
  | Some a => [a]
  | None => []
  end.
Proof.
  intros [Hact Hdeact].
  rewrite processQueue_notified, activations_app, activations_deactivated by exact Hdeact.
  simpl.
  destruct (spec_activation _ _) as [a|] eqn:Ha; [|reflexivity].
  apply spec_activation_inv in Ha. destruct Ha as [bp [_ [_ Hin]]].
  rewrite List.Forall_forall in Hact. rewrite (Hact a Hin). reflexivity.
Qed.

Lemma with_activated_sorted (q : t) (act' : list MediaChange.t) :
  buffers_sorted q -> Permutation (_activated q) act' ->
  buffers_sorted (with_activated q act').
Proof.
  intros [Hact Hdeact] Hp. split; simpl; [|exact Hdeact].
  rewrite List.Forall_forall in *. intros c Hc. apply Hact.
  apply Permutation_in with (l := act'); [symmetry; exact Hp | exact Hc].
Qed.

(** C1. A flush announces at most one activation; the one it announces is
    the first queued activation for the query of the first range, in registry
    order, that has a queued activation; and the range it is announced for
    stays the same however the queued activations are reordered. *)
Theorem flush_announces_first_range_activation
    (bps : list BreakPoint.t) (q : ChangeQueue.t) :
  reachable bps q ->
  let emitted := activations (notified (snd (processQueue q))) in
  length emitted <= 1 /\
  (forall a, In a emitted ->
     exists bp,
       first_range_with_activation bps (_activated q) = Some bp /\
       MediaChange.mediaQuery a = BreakPoint.mediaQuery bp /\
       List.find (fun c => String.eqb (MediaChange.mediaQuery c) (BreakPoint.mediaQuery bp))
                 (_activated q) = Some a) /\
  (forall bp, first_range_with_activation bps (_activated q) = Some bp ->
     exists a, emitted = [a] /\ MediaChange.mediaQuery a = BreakPoint.mediaQuery bp) /\
  (forall act', Permutation (_activated q) act' ->
     map MediaChange.mediaQuery
         (activations (notified (snd (processQueue (with_activated q act'))))) =
     map MediaChange.mediaQuery emitted).
Proof.
  intros Hreach emitted.
  destruct (reachable_invariant bps q Hreach) as [Hsorted Hbps].
  assert (Hem : emitted = match spec_activation bps (_activated q) with
                          | Some a => [a] | None => [] end).
  { unfold emitted. rewrite flush_activations by exact Hsorted. rewrite Hbps. reflexivity. }
  repeat split.
  - rewrite Hem. destruct (spec_activation _ _); simpl; lia.
  - intros a Hin. rewrite Hem in Hin.
    destruct (spec_activation bps (_activated q)) as [a'|] eqn:Ha; [|destruct Hin].
    destruct Hin as [->|[]].
    unfold spec_activation in Ha.
    destruct (first_range_with_activation bps (_activated q)) as [bp|]; [|discriminate].
    exists bp. repeat split; [|exact Ha].
    apply find_some in Ha. apply String.eqb_eq, Ha.
  - intros bp Hbp. destruct (spec_activation_some _ _ _ Hbp) as [a [Ha Hq]].
    exists a. rewrite Hem, Ha. auto.
  - intros act' Hp.
    rewrite flush_activations by (apply with_activated_sorted; assumption).
    simpl. rewrite Hem, Hbps.
    pose proof (spec_activation_query_perm bps _ _ Hp) as Hq.
    destruct (spec_activation bps (_activated q)), (spec_activation bps act');
      simpl in *; congruence.
Qed.

End Flush.

Lemma queue_r4_r2_reachable : ChangeQueue.reachable four_ranges queue_r4_r2.
Proof.
  unfold queue_r4_r2.
  do 2 apply onMediaChange_reachable.
  apply ChangeQueue.reach_enableAsync, ChangeQueue.reach_new.
Qed.

Lemma flush_announces_first_range_activation_witness :
  ChangeQueue.reachable four_ranges queue_r4_r2 /\
  exists a,
    ChangeQueue.activations
      (ChangeQueue.notified (snd (ChangeQueue.processQueue queue_r4_r2))) = [a] /\
    MediaChange.mediaQuery a = "Q2".
Proof.
  split; [exact queue_r4_r2_reachable|].
  destruct (flush_announces_first_range_activation four_ranges queue_r4_r2
              queue_r4_r2_reachable) as (_ & _ & Hfirst & _).
  apply (Hfirst (BreakPoint.mk "r2" "R2" false "Q2")). reflexivity.
Defined.

(** The scenario, first turn: "Q1" and "Q2" go true together; nothing is
    handed out before the timer fires, and the flush hands out the
    activation of "Q1" alone. *)
Example scenario_first_turn :
  let '(m, before, armed) :=
    MediaMonitor.onChange_all monitor_deferred
      [MediaChange.new true "Q1"; MediaChange.new true "Q2"] in
  before = [] /\ armed = 1 /\
  snd (MediaMonitor.flush m) = [(4, MediaChange.new true "Q1")].
Proof. repeat split; reflexivity. Qed.

(** Second turn: "Q1" goes false and "Q2" true; the flush hands out the
    deactivation, then the activation. *)
Example scenario_second_turn :
  let '(m1, _, _) :=
    MediaMonitor.onChange_all monitor_deferred
      [MediaChange.new true "Q1"; MediaChange.new true "Q2"] in
  let '(m2, _, _) :=
    MediaMonitor.onChange_all (fst (MediaMonitor.flush m1))
      [MediaChange.new false "Q1"; MediaChange.new true "Q2"] in
  snd (MediaMonitor.flush m2)
    = [(4, MediaChange.new false "Q1"); (4, MediaChange.new true "Q2")].
Proof. reflexivity. Qed.

(** With deferred flushes off, as a new queue has them, every change is
    flushed by the call that brings it. *)
Example immediate_flush_per_change :
  snd (ChangeQueue.onMediaChange (ChangeQueue.new two_ranges) (MediaChange.new true "Q2"))
    = [ChangeQueue.Notify (Some (MediaChange.new true "Q2"))] /\
  snd (ChangeQueue.onMediaChange (ChangeQueue.new two_ranges) (MediaChange.new false "Q2"))
    = [ChangeQueue.Notify (Some (MediaChange.new false "Q2")); ChangeQueue.Notify None].
Proof. split; reflexivity. Qed.

Section FlushOrder.

Import ChangeQueue.

Lemma nth_error_map_Some (ds : list MediaChange.t) (i : nat) (d : MediaChange.t) :
  nth_error ds i = Some d -> nth_error (map Some ds) i = Some (Some d).
Proof. intros H. rewrite nth_error_map, H. reflexivity. Qed.

Lemma arrived_invariant (bps : list BreakPoint.t) (q : t) (arrived : list MediaChange.t) :
  arrived_since_flush bps q arrived ->
  _deactivated q = List.filter (fun c => negb (MediaChange.matches c)) arrived /\
  _activated q = List.filter MediaChange.matches arrived /\
  reachable bps q.
Proof.
  induction 1 as [|q arrived b _ IH|q arrived c _ IH|q arrived _ IH|q arrived _ IH].
  - repeat split. apply reach_new.
  - destruct IH as (Hd & Ha & Hr). repeat split; auto. apply reach_enableAsync, Hr.
  - destruct IH as (Hd & Ha & Hr). rewrite !List.filter_app.
    cbn [List.filter].
    split; [|split; [|apply reach_queued, Hr]];
      unfold _queueChanges; destruct (MediaChange.matches c); simpl;
        rewrite ?app_nil_r; congruence.
  - destruct IH as (Hd & Ha & Hr). repeat split; auto. apply reach_armed, Hr.
  - destruct IH as (Hd & Ha & Hr). repeat split. apply reach_flushed, Hr.
Qed.

(** Every reachable queue has its arrivals since the last flush. *)
Lemma reachable_arrived (bps : list BreakPoint.t) (q : t) :
  reachable bps q -> exists arrived, arrived_since_flush bps q arrived.
Proof.
  induction 1 as [|q b _ [arrived IH]|q c _ [arrived IH]|q _ [arrived IH]
                  |q _ [arrived IH]].
  - exists []. apply arrived_new.
  - exists arrived. apply arrived_enableAsync, IH.
  - exists (arrived ++ [c]). apply arrived_queued, IH.
  - exists arrived. apply arrived_armed, IH.
  - exists []. apply (arrived_flushed bps q arrived IH).
Qed.

(** C2. Of the raw changes that came in since the last flush, a flush
    announces every deactivation, in the order they came in, and only then,
    once, calls [_notify] for the activation: no activation is announced
    before the last deactivation. The deactivations never cancel an
    activation: the flush announces the activation it would announce with no
    deactivation buffered, so a deactivation and the activation the flush
    settles on are both announced, the deactivation first, also when they are
    for the same query. *)
Theorem flush_announces_deactivations_first
    (bps : list BreakPoint.t) (q : ChangeQueue.t) (arrived : list MediaChange.t) :
  arrived_since_flush bps q arrived ->
  let calls := notified (snd (processQueue q)) in
  let offs := List.filter (fun c => negb (MediaChange.matches c)) arrived in
  let ons := List.filter MediaChange.matches arrived in
  _deactivated q = offs /\
  calls = map Some offs ++ [spec_activation bps ons] /\
  firstn (length (_deactivated q)) calls = map Some (_deactivated q) /\
  length calls = S (length (_deactivated q)) /\
  (forall i a, nth_error calls i = Some (Some a) -> MediaChange.matches a = true ->
               i = length (_deactivated q)) /\
  activations calls =
    activations (notified (snd (processQueue (with_deactivated q [])))) /\
  (forall d a, In d (_deactivated q) ->
     spec_activation bps (_activated q) = Some a ->
     exists i j, nth_error calls i = Some (Some d) /\
                 nth_error calls j = Some (Some a) /\ i < j) /\
  (forall d bp, In d arrived -> MediaChange.matches d = false ->
     first_range_with_activation bps ons = Some bp ->
     BreakPoint.mediaQuery bp = MediaChange.mediaQuery d ->
     exists a i j,
       In a arrived /\ MediaChange.matches a = true /\
       MediaChange.mediaQuery a = MediaChange.mediaQuery d /\
       nth_error calls i = Some (Some d) /\
       nth_error calls j = Some (Some a) /\ i < j).
Proof.
  intros Harrived calls offs ons.
  destruct (arrived_invariant bps q arrived Harrived) as (Hoffs & Hons & Hreach).
  destruct (reachable_invariant bps q Hreach) as [[Hact Hdeact] Hbps].
  assert (Hcalls : calls = map Some (_deactivated q) ++ [spec_activation bps (_activated q)]).
  { unfold calls. rewrite processQueue_notified, Hbps. reflexivity. }
  assert (Hlen : length (map Some (_deactivated q)) = length (_deactivated q))
    by apply length_map.
  assert (Hboth : forall d a, In d (_deactivated q) ->
            spec_activation bps (_activated q) = Some a ->
            exists i j, nth_error calls i = Some (Some d) /\
                        nth_error calls j = Some (Some a) /\ i < j).
  { intros d a Hd Ha.
    apply In_nth_error in Hd. destruct Hd as [i Hi].
    exists i, (length (_deactivated q)). repeat split.
    - rewrite Hcalls, nth_error_app1.
      + apply nth_error_map_Some, Hi.
      + rewrite Hlen. apply nth_error_Some. congruence.
    - rewrite Hcalls, nth_error_app2 by (rewrite Hlen; lia).
      rewrite Hlen, Nat.sub_diag, Ha. reflexivity.
    - apply nth_error_Some. congruence. }
  split; [exact Hoffs|].
  split; [rewrite Hcalls, Hoffs, Hons; reflexivity|].
  split; [|split; [|split; [|split; [|split; [exact Hboth|]]]]].
  - rewrite Hcalls, <- Hlen, firstn_app, Nat.sub_diag, firstn_all. simpl.
    apply app_nil_r.
  - rewrite Hcalls, length_app, Hlen. simpl. lia.
  - intros i a Hi Ha. rewrite Hcalls in Hi.
    destruct (Nat.lt_ge_cases i (length (_deactivated q))) as [Hlt|Hge].
    + rewrite nth_error_app1 in Hi by (rewrite Hlen; exact Hlt).
      rewrite nth_error_map in Hi.
      destruct (nth_error (_deactivated q) i) as [d|] eqn:Hd; [|discriminate].
      simpl in Hi. injection Hi as ->.
      apply nth_error_In in Hd. rewrite List.Forall_forall in Hdeact.
      rewrite (Hdeact a Hd) in Ha. discriminate.
    + rewrite nth_error_app2 in Hi by (rewrite Hlen; exact Hge). rewrite Hlen in Hi.
      destruct (i - length (_deactivated q)) as [|k] eqn:Hk; [lia|].
      simpl in Hi. destruct k; discriminate.
  - unfold calls. rewrite !flush_activations; [reflexivity| |].
    + split; simpl; [exact Hact | constructor].
    + split; assumption.
  - intros d bp Hd Hoff Hbp Hquery.
    destruct (spec_activation_some bps ons bp Hbp) as [a [Ha Hqa]].
    destruct (spec_activation_inv bps ons a Ha) as [_ (_ & _ & Hin)].
    apply List.filter_In in Hin. destruct Hin as [Hin Hon].
    assert (Hd' : In d (_deactivated q)).
    { rewrite Hoffs. apply List.filter_In. split; [exact Hd|]. rewrite Hoff. reflexivity. }
    assert (Ha' : spec_activation bps (_activated q) = Some a) by (rewrite Hons; exact Ha).
    destruct (Hboth d a Hd' Ha') as [i [j (Hi & Hj & Hij)]].
    exists a, i, j. repeat split; auto. congruence.
Qed.

End FlushOrder.

Lemma queue_off_on_q2_reachable : ChangeQueue.reachable two_ranges queue_off_on_q2.
Proof.
  unfold queue_off_on_q2.
  do 3 apply onMediaChange_reachable.
  apply ChangeQueue.reach_enableAsync, ChangeQueue.reach_new.
Qed.

(** The single activation of a flush at work: the deactivation and the
    activation of "Q2" come in with the activation of "Q1"; the flush
    announces the deactivation, and for the activation settles on "Q1", the
    first range. *)
Lemma flush_keeps_back_activation_of_same_query :
  ChangeQueue.reachable two_ranges queue_off_on_q2 /\
  In (MediaChange.new false "Q2") (ChangeQueue._deactivated queue_off_on_q2) /\
  In (MediaChange.new true "Q2") (ChangeQueue._activated queue_off_on_q2) /\
  ChangeQueue.notified (snd (ChangeQueue.processQueue queue_off_on_q2)) =
    [Some (MediaChange.new false "Q2"); Some (MediaChange.new true "Q1")] /\
  ~ In (Some (MediaChange.new true "Q2"))
       (ChangeQueue.notified (snd (ChangeQueue.processQueue queue_off_on_q2))).
Proof.
  split; [exact queue_off_on_q2_reachable|].
  split; [left; reflexivity|].
  split; [left; reflexivity|].
  split; [reflexivity|].
  intros [H|[H|[]]]; discriminate H.
Qed.

Lemma queue_off_on_pair_arrived :
  arrived_since_flush two_ranges queue_off_on_pair
    [MediaChange.new false "Q2"; MediaChange.new true "Q2"].
Proof.
  exact (arrived_queued two_ranges _ _ (MediaChange.new true "Q2")
           (arrived_armed two_ranges _ _
              (arrived_queued two_ranges _ _ (MediaChange.new false "Q2")
                 (arrived_enableAsync two_ranges _ _ true (arrived_new two_ranges))))).
Qed.

Lemma flush_announces_deactivations_first_witness :
  arrived_since_flush two_ranges queue_off_on_pair
    [MediaChange.new false "Q2"; MediaChange.new true "Q2"] /\
  ChangeQueue.notified (snd (ChangeQueue.processQueue queue_off_on_pair))
    = [Some (MediaChange.new false "Q2"); Some (MediaChange.new true "Q2")].
Proof.
  split; [exact queue_off_on_pair_arrived|].
  destruct (flush_announces_deactivations_first two_ranges queue_off_on_pair
              [MediaChange.new false "Q2"; MediaChange.new true "Q2"]
              queue_off_on_pair_arrived) as (_ & Hcalls & _).
  exact Hcalls.
Defined.

(** ** The evaluator adapter *)

Section MatchMediaFacts.

Import MatchMedia.

Variable w : Window.

Lemma matches_addListener (w' : Window) (mql : MediaQueryList) (l : Listener) :
  matches w' (addListener mql l) = matches w' mql.
Proof. destruct mql; reflexivity. Qed.

Lemma registerQuery_registry (mm : t) (q0 : string) (cb : Callback) (q : string) :
  _registry (fst (registerQuery w mm q0 cb)) !! q =
  if String.eqb q0 "" then _registry mm !! q
  else if String.eqb q0 q then Some (addListener (list_for w mm q0) (mkListener cb q0))
       else _registry mm !! q.
Proof.
  unfold registerQuery, list_for.
  destruct (String.eqb q0 "") eqn:He; [reflexivity|].
  destruct (_registry mm !! q0) as [mql|] eqn:Hl; simpl;
    (destruct (String.eqb q0 q) eqn:Hq;
     [apply String.eqb_eq in Hq; subst q; apply lookup_insert_eq
     |apply String.eqb_neq in Hq; apply lookup_insert_ne; exact Hq]).
Qed.

Lemma registerQuery_built (mm : t) (q0 : string) (cb : Callback) :
  built (snd (registerQuery w mm q0 cb)) =
  if String.eqb q0 "" then []
  else match _registry mm !! q0 with Some _ => [] | None => [q0] end.
Proof.
  unfold registerQuery.
  destruct (String.eqb q0 "") eqn:He; [reflexivity|].
  destruct (_registry mm !! q0) as [mql|]; simpl;
    destruct (matches w _); reflexivity.
Qed.

Lemma registerAll_cons (mm : t) (q0 : string) (cb : Callback)
    (rest : list (string * Callback)) :
  registerAll w mm ((q0, cb) :: rest) =
  (fst (registerAll w (fst (registerQuery w mm q0 cb)) rest),
   snd (registerQuery w mm q0 cb) ++ snd (registerAll w (fst (registerQuery w mm q0 cb)) rest)).
Proof.
  simpl. destruct (registerQuery w mm q0 cb) as [mm1 out1]. simpl.
  destruct (registerAll w mm1 rest) as [mm2 out2]. reflexivity.
Qed.

Lemma built_app (xs ys : list Effect) : built (xs ++ ys) = built xs ++ built ys.
Proof. unfold built. apply flat_map_app. Qed.

Lemma attach_cons (mql : MediaQueryList) (q : string) (cb : Callback) (cbs : list Callback) :
  attach mql q (cb :: cbs) = attach (addListener mql (mkListener cb q)) q cbs.
Proof. reflexivity. Qed.

Lemma registered_for_cons (q q0 : string) (cb : Callback) (rest : list (string * Callback)) :
  registered_for q ((q0, cb) :: rest) =
  if String.eqb q0 q then cb :: registered_for q rest else registered_for q rest.
Proof. unfold registered_for. simpl. destruct (String.eqb q0 q); reflexivity. Qed.

(** What the adapter holds for [q] after a series of registrations. *)
Lemma registerAll_registry (calls : list (string * Callback)) (mm : t) (q : string) :
  _registry (fst (registerAll w mm calls)) !! q =
  match registered_for q calls with
  | [] => _registry mm !! q
  | cbs => if String.eqb q "" then _registry mm !! q
           else Some (attach (list_for w mm q) q cbs)
  end.
Proof.
  revert mm. induction calls as [|[q0 cb] rest IH]; intros mm; [reflexivity|].
  rewrite registerAll_cons. simpl fst. rewrite IH, registered_for_cons.
  destruct (String.eqb q0 q) eqn:Hq.
  - apply String.eqb_eq in Hq. subst q0.
    destruct (String.eqb q "") eqn:He.
    + rewrite registerQuery_registry, He.
      destruct (registered_for q rest); reflexivity.
    + assert (Hl : list_for w (fst (registerQuery w mm q cb)) q
                   = addListener (list_for w mm q) (mkListener cb q)).
      { unfold list_for at 1.
        rewrite registerQuery_registry, He, String.eqb_refl. reflexivity. }
      rewrite registerQuery_registry, He, String.eqb_refl, Hl, attach_cons.
      destruct (registered_for q rest); reflexivity.
  - assert (Hl : list_for w (fst (registerQuery w mm q0 cb)) q = list_for w mm q).
    { unfold list_for. rewrite registerQuery_registry, Hq.
      destruct (String.eqb q0 ""); reflexivity. }
    rewrite Hl, registerQuery_registry, Hq.
    destruct (String.eqb q0 ""); reflexivity.
Qed.

Lemma registered_for_nil (q : string) (calls : list (string * Callback)) :
  registered_for q calls = [] <-> ~ In q (map fst calls).
Proof.
  unfold registered_for.
  induction calls as [|[q0 cb] rest IH]; simpl; [tauto|].
  destruct (String.eqb q0 q) eqn:Hq; simpl.
  - apply String.eqb_eq in Hq. split; [discriminate | intros H; exfalso; auto].
  - apply String.eqb_neq in Hq. rewrite IH. tauto.
Qed.

(** The lists built by a series of registrations: one for each query, not
    empty, that the adapter did not hold yet; none twice. *)
Lemma registerAll_built (calls : list (string * Callback)) (mm : t) :
  NoDup (built (snd (registerAll w mm calls))) /\
  forall q, In q (built (snd (registerAll w mm calls))) <->
            q <> "" /\ In q (map fst calls) /\ _registry mm !! q = None.
Proof.
  revert mm. induction calls as [|[q0 cb] rest IH]; intros mm.
  - simpl. split; [constructor | tauto].
  - rewrite registerAll_cons. simpl snd. rewrite built_app, registerQuery_built.
    destruct (IH (fst (registerQuery w mm q0 cb))) as [Hnd Hin].
    assert (Hreg : forall q, _registry (fst (registerQuery w mm q0 cb)) !! q = None <->
                             _registry mm !! q = None /\ (q0 = "" \/ q0 <> q)).
    { intros q. rewrite registerQuery_registry.
      destruct (String.eqb q0 "") eqn:He.
      - apply String.eqb_eq in He. tauto.
      - apply String.eqb_neq in He.
        destruct (String.eqb q0 q) eqn:Hq.
        + apply String.eqb_eq in Hq. split; [discriminate | tauto].
        + apply String.eqb_neq in Hq. tauto. }
    destruct (String.eqb q0 "") eqn:He.
    + apply String.eqb_eq in He. subst q0. simpl. split; [exact Hnd|].
      intros q. rewrite Hin, Hreg. split.
      * intros (Hne & Hq & Hnone & _). auto.
      * intros (Hne & [Heq|Hq] & Hnone); [congruence|]. auto.
    + apply String.eqb_neq in He.
      destruct (_registry mm !! q0) as [mql|] eqn:Hl; simpl.
      * split; [exact Hnd|].
        intros q. rewrite Hin, Hreg. split.
        -- intros (Hne & Hq & Hnone & _). auto.
        -- intros (Hne & [Heq|Hq] & Hnone); [congruence|].
           repeat split; auto. right. congruence.
      * split.
        -- constructor; [|exact Hnd].
           rewrite list_elem_of_In, Hin, Hreg. intros (_ & _ & _ & [Heq|Hneq]); congruence.
        -- intros q. rewrite Hin, Hreg. split.
           ++ intros [Heq|(Hne & Hq & Hnone & _)]; [subst q; auto | auto].
           ++ intros (Hne & [Heq|Hq] & Hnone); [left; exact Heq|].
              destruct (String.eqb q0 q) eqn:Hq0.
              ** left. apply String.eqb_eq, Hq0.
              ** apply String.eqb_neq in Hq0. right. auto.
Qed.

End MatchMediaFacts.

Section Registration.

Import MatchMedia.

(** C5. For a query that reads true now (the list the adapter holds for it,
    or builds for it at this registration, has [matches] true; for the empty
    string the adapter holds and builds none, so it never reads true),
    [registerQuery] calls the new listener's callback once, within the call,
    with the activation of that query ([matches] true), and calls nothing
    else. *)
Theorem registerQuery_announces_true_query
    (w : Window) (mm : MatchMedia.t) (q : string) (cb : Callback) :
  q <> "" ->
  evaluate w mm q = true ->
  let out := snd (registerQuery w mm q cb) in
  received cb out = [MediaChange.new true q] /\
  (forall cb' c, In (Call cb' c) out -> cb' = cb /\ c = MediaChange.new true q).
Proof.
  intros Hq Hev out. unfold out, registerQuery.
  apply String.eqb_neq in Hq. rewrite Hq.
  unfold evaluate in Hev.
  destruct (_registry mm !! q) as [mql|]; simpl snd;
    rewrite matches_addListener, Hev; unfold onMQLEvent; simpl;
    rewrite matches_addListener, Hev, Nat.eqb_refl; (split; [reflexivity|]).
  - intros cb' c [H|[]]. injection H as <- <-. auto.
  - intros cb' c [H|[H|[]]]; [discriminate H|]. injection H as <- <-. auto.
Qed.

Lemma registerQuery_announces_true_query_witness :
  "Q1" <> "" /\ evaluate window_q1 MatchMedia.new "Q1" = true /\
  received 7 (snd (registerQuery window_q1 MatchMedia.new "Q1" 7))
    = [MediaChange.new true "Q1"].
Proof.
  split; [discriminate|]. split; [reflexivity|].
  apply (registerQuery_announces_true_query window_q1 MatchMedia.new "Q1" 7);
    [discriminate | reflexivity].
Defined.

Lemma attach_native (media q : string) (ls : list Listener) (cbs : list Callback) :
  attach (Native media ls) q cbs = Native media (ls ++ map (fun cb => mkListener cb q) cbs).
Proof.
  revert ls. induction cbs as [|cb rest IH]; intros ls; simpl.
  - rewrite app_nil_r. reflexivity.
  - rewrite attach_cons. simpl addListener. rewrite IH, <- app_assoc. reflexivity.
Qed.

Lemma attach_fallback (b : bool) (media q : string) (cbs : list Callback) :
  attach (Fallback b media) q cbs = Fallback b media.
Proof. induction cbs as [|cb rest IH]; [reflexivity | rewrite attach_cons; exact IH]. Qed.

(** C6. After any series of [registerQuery] calls on a new adapter, one list
    was built for each distinct query that is not the empty string, however
    many listeners were registered for it, and these are the lists the
    adapter holds, as many as there are such queries; when the browser fires the change of a query, every
    callback registered for it is called, in registration order, with the
    change of that query. (Where lists cannot listen, [addListener] does
    nothing and no callback is ever called.) *)
Theorem registerAll_one_list_per_query (w : Window) (calls : list (string * Callback)) :
  let mm := fst (registerAll w MatchMedia.new calls) in
  let out := snd (registerAll w MatchMedia.new calls) in
  NoDup (built out) /\
  (forall q, In q (built out) <-> q <> "" /\ In q (map fst calls)) /\
  (forall q, is_Some (_registry mm !! q) <-> In q (built out)) /\
  size (_registry mm) = length (built out) /\
  (forall (w' : Window) (q : string),
     dispatch w' mm q =
     if canListen w && negb (String.eqb q "")
     then map (fun cb => Call cb (MediaChange.new (media_matches w' q) q))
              (registered_for q calls)
     else []).
Proof.
  intros mm out.
  destruct (registerAll_built w calls MatchMedia.new) as [Hnd Hin].
  assert (Hbuilt : forall q, In q (built out) <-> q <> "" /\ In q (map fst calls)).
  { intros q. unfold out. rewrite Hin. simpl. rewrite lookup_empty. tauto. }
  assert (Hheld : forall q, is_Some (_registry mm !! q) <-> In q (built out)).
  { intros q. rewrite Hbuilt. unfold mm. rewrite registerAll_registry.
    simpl. rewrite lookup_empty.
    destruct (registered_for q calls) as [|cb cbs] eqn:Hr.
    - apply registered_for_nil in Hr. split; [intros [x Hx]; discriminate | tauto].
    - assert (Hq : In q (map fst calls)).
      { destruct (in_dec string_dec q (map fst calls)) as [Hi|Hn]; [exact Hi|].
        apply registered_for_nil in Hn. congruence. }
      destruct (String.eqb q "") eqn:He.
      + apply String.eqb_eq in He. split; [intros [x Hx]; discriminate | tauto].
      + apply String.eqb_neq in He. split; [tauto | eauto]. }
  split; [exact Hnd|]. split; [exact Hbuilt|]. split; [exact Hheld|]. split.
  - assert (Hdom : dom (_registry mm) = list_to_set (built out)).
    { apply set_eq. intros q.
      rewrite elem_of_dom, elem_of_list_to_set, list_elem_of_In. apply Hheld. }
    rewrite <- size_dom, Hdom. apply size_list_to_set, Hnd.
  - intros w' q. unfold dispatch, mm. rewrite registerAll_registry.
    simpl. rewrite lookup_empty.
    destruct (registered_for q calls) as [|cb cbs] eqn:Hr.
    + destruct (canListen w && negb (String.eqb q "")); reflexivity.
    + destruct (String.eqb q "") eqn:He.
      * rewrite andb_false_r. reflexivity.
      * rewrite andb_true_r. unfold list_for. simpl. rewrite lookup_empty.
        unfold _buildMQL. destruct (canListen w).
        -- rewrite attach_native. cbn [listeners_of app].
           rewrite List.map_map. reflexivity.
        -- rewrite attach_fallback. reflexivity.
Qed.

End Registration.

(** ** The monitor's getters *)

Section Getters.

Variable w : MatchMedia.Window.
Variable mm : MatchMedia.t.

Lemma filter_rev_comm {A : Type} (p : A -> bool) (l : list A) :
  List.filter p (rev l) = rev (List.filter p l).
Proof.
  induction l as [|x rest IH]; simpl; [reflexivity|].
  rewrite List.filter_app, IH. simpl.
  destruct (p x); simpl; [reflexivity | apply app_nil_r].
Qed.

Lemma filter_filter_andb {A : Type} (p o : A -> bool) (l : list A) :
  List.filter p (List.filter o l) = List.filter (fun x => o x && p x) l.
Proof.
  induction l as [|x rest IH]; simpl; [reflexivity|].
  destruct (o x); simpl; [destruct (p x)|]; rewrite IH; reflexivity.
Qed.

(** C7 (as amended). [activeOverlaps] returns exactly the ranges flagged
    overlapping that are true now, listed in reverse registry order. *)
Theorem activeOverlaps_reverse_registry_order (m : MediaMonitor.t) :
  MediaMonitor.activeOverlaps w mm m
    = rev (Spec.activeOverlaps w mm (MediaMonitor._breakpoints m)) /\
  (forall bp, In bp (MediaMonitor.activeOverlaps w mm m) <->
              In bp (MediaMonitor.breakpoints m) /\
              BreakPoint.overlapping bp = true /\
              MatchMedia.isActive w mm (BreakPoint.mediaQuery bp) = true).
Proof.
  assert (Heq : MediaMonitor.activeOverlaps w mm m
                = rev (Spec.activeOverlaps w mm (MediaMonitor._breakpoints m))).
  { unfold MediaMonitor.activeOverlaps, Spec.activeOverlaps,
      BreakPointRegistry.overlappings.
    rewrite filter_rev_comm, filter_filter_andb. reflexivity. }
  split; [exact Heq|].
  intros bp. rewrite Heq, <- in_rev. unfold Spec.activeOverlaps.
  rewrite List.filter_In, andb_true_iff. reflexivity.
Qed.

Lemma fold_active_found (items : list BreakPoint.t) (f : BreakPoint.t) :
  fold_left (MediaMonitor.active_visit w mm) items (Some f) = Some f.
Proof.
  induction items as [|bp rest IH]; simpl; [reflexivity|].
  unfold MediaMonitor.active_visit at 2.
  destruct (negb _); exact IH.
Qed.

(** The loop of [active] finds the first range, in the order it walks them,
    that has an alias and is true now. *)
Lemma fold_active_find (items : list BreakPoint.t) :
  fold_left (MediaMonitor.active_visit w mm) items None
  = List.find (named_and_true w mm) items.
Proof.
  induction items as [|bp rest IH]; simpl; [reflexivity|].
  unfold MediaMonitor.active_visit at 2, named_and_true at 1.
  destruct (negb _); simpl; [|exact IH].
  destruct (MatchMedia.isActive w mm _); [apply fold_active_found | exact IH].
Qed.

Lemma find_app_first {A : Type} (p : A -> bool) (l1 l2 : list A) :
  List.find p (l1 ++ l2) =
  match List.find p l1 with Some x => Some x | None => List.find p l2 end.
Proof.
  induction l1 as [|x rest IH]; simpl; [reflexivity|].
  destruct (p x); [reflexivity | exact IH].
Qed.

(** What [find] returns on the reversed list is the last match of the list. *)
Lemma find_rev_last {A : Type} (p : A -> bool) (l : list A) (x : A) :
  List.find p (rev l) = Some x ->
  exists i, nth_error l i = Some x /\ p x = true /\
            forall j y, i < j -> nth_error l j = Some y -> p y = false.
Proof.
  induction l as [|a rest IH]; simpl; [discriminate|].
  rewrite find_app_first.
  destruct (List.find p (rev rest)) as [x'|] eqn:Hrest.
  - intros Hx. injection Hx as ->.
    destruct (IH eq_refl) as [i (Hi & Hp & Hlast)].
    exists (S i). repeat split; auto.
    intros [|j] y Hlt Hj; [lia|]. apply (Hlast j y); [lia | exact Hj].
  - simpl. destruct (p a) eqn:Hpa; [|discriminate].
    intros Hx. injection Hx as ->.
    exists 0. repeat split; auto.
    intros [|j] y Hlt Hj; [lia|]. simpl in Hj.
    apply nth_error_In, (in_rev rest) in Hj.
    apply (find_none _ _ Hrest y Hj).
Qed.

(** On an empty registry [active] fails on [first.mediaQuery]. *)
Lemma active_empty_registry (m : MediaMonitor.t) :
  MediaMonitor.breakpoints m = [] ->
  MediaMonitor.active w mm m = MediaMonitor.TypeError.
Proof. intros H. unfold MediaMonitor.active. rewrite H. reflexivity. Qed.

(** C3 (as amended). On a registry that is not empty, [active] returns the
    range of highest registry index among those that have an alias and are
    true now, flagged overlapping or not; when there is none, it returns the
    first range of the registry if that one is true now, and none
    otherwise. *)
Theorem active_last_named_true_range
    (m : MediaMonitor.t) (first : BreakPoint.t) (rest : list BreakPoint.t) :
  MediaMonitor.breakpoints m = first :: rest ->
  MediaMonitor.active w mm m =
    MediaMonitor.Returns
      (match List.find (named_and_true w mm) (rev (MediaMonitor.breakpoints m)) with
       | Some bp => Some bp
       | None => if MatchMedia.isActive w mm (BreakPoint.mediaQuery first)
                 then Some first else None
       end) /\
  (forall bp,
     List.find (named_and_true w mm) (rev (MediaMonitor.breakpoints m)) = Some bp ->
     exists i,
       nth_error (MediaMonitor.breakpoints m) i = Some bp /\
       named_and_true w mm bp = true /\
       forall j bp', i < j -> nth_error (MediaMonitor.breakpoints m) j = Some bp' ->
                     named_and_true w mm bp' = false).
Proof.
  intros Hbps. split.
  - unfold MediaMonitor.active. rewrite fold_active_find.
    destruct (List.find _ _); [reflexivity|]. rewrite Hbps. reflexivity.
  - intros bp. apply find_rev_last.
Qed.

(** C8. For an input that is no registered alias and no registered query,
    [isActive] asks the adapter about the input itself, as a query; the
    answer is false unless the adapter holds a list for that very string
    that matches now. The lookup is total: it returns without failing. *)
Theorem isActive_unknown_input_is_literal_query (m : MediaMonitor.t) (input : string) :
  BreakPointRegistry.findByAlias (MediaMonitor._breakpoints m) input = None ->
  BreakPointRegistry.findByQuery (MediaMonitor._breakpoints m) input = None ->
  MediaMonitor.isActive w mm m input = MatchMedia.isActive w mm input /\
  (MatchMedia._registry mm !! input = None ->
   MediaMonitor.isActive w mm m input = false) /\
  (MediaMonitor.isActive w mm m input = true <->
   exists mql, MatchMedia._registry mm !! input = Some mql /\
               MatchMedia.matches w mql = true).
Proof.
  intros Ha Hq.
  assert (Heq : MediaMonitor.isActive w mm m input = MatchMedia.isActive w mm input).
  { unfold MediaMonitor.isActive, MediaMonitor.lookup. rewrite Ha, Hq. reflexivity. }
  split; [exact Heq|]. rewrite Heq. unfold MatchMedia.isActive. split.
  - intros ->. reflexivity.
  - destruct (MatchMedia._registry mm !! input) as [mql|].
    + split; [eauto | intros [mql' [H Hm]]; congruence].
    + split; [discriminate | intros [mql' [H _]]; discriminate].
Qed.

End Getters.

(** Against C3 as stated: with "sm" and "md" both true, [active] returns
    "md", the one of higher registry index; with "lg" and the overlapping
    "web" both true, it returns "web". *)
Lemma active_prefers_last_range :
  MediaMonitor.active window_q1_q2 (snd (monitor_over two_ranges))
                      (fst (monitor_over two_ranges))
    = MediaMonitor.Returns (Some (BreakPoint.mk "md" "Md" false "Q2")) /\
  Spec.active window_q1_q2 (snd (monitor_over two_ranges)) two_ranges
    = Some (BreakPoint.mk "sm" "Sm" false "Q1") /\
  MediaMonitor.active window_q1_q2 (snd (monitor_over ranges_lg_web))
                      (fst (monitor_over ranges_lg_web))
    = MediaMonitor.Returns (Some (BreakPoint.mk "web" "Web" true "Q2")) /\
  Spec.active window_q1_q2 (snd (monitor_over ranges_lg_web)) ranges_lg_web
    = Some (BreakPoint.mk "lg" "Lg" false "Q1") /\
  MediaMonitor.active window_q1_q2 (snd (monitor_over ranges_lg_web))
                      (fst (monitor_over ranges_lg_web))
    <> MediaMonitor.Returns
         (Spec.active window_q1_q2 (snd (monitor_over ranges_lg_web)) ranges_lg_web).
Proof.
  split; [vm_compute; reflexivity|].
  split; [vm_compute; reflexivity|].
  split; [vm_compute; reflexivity|].
  split; [vm_compute; reflexivity|].
  vm_compute. discriminate.
Qed.

Lemma active_last_named_true_range_witness :
  MediaMonitor.breakpoints (fst (monitor_over ranges_lg_web))
    = BreakPoint.mk "lg" "Lg" false "Q1" :: [BreakPoint.mk "web" "Web" true "Q2"] /\
  MediaMonitor.active window_q1_q2 (snd (monitor_over ranges_lg_web))
                      (fst (monitor_over ranges_lg_web))
    = MediaMonitor.Returns
        (match List.find (named_and_true window_q1_q2 (snd (monitor_over ranges_lg_web)))
                         (rev (MediaMonitor.breakpoints (fst (monitor_over ranges_lg_web))))
         with
         | Some bp => Some bp
         | None =>
             if MatchMedia.isActive window_q1_q2 (snd (monitor_over ranges_lg_web)) "Q1"
             then Some (BreakPoint.mk "lg" "Lg" false "Q1") else None
         end).
Proof.
  split; [reflexivity|].
  apply (active_last_named_true_range window_q1_q2 (snd (monitor_over ranges_lg_web))
           (fst (monitor_over ranges_lg_web))
           (BreakPoint.mk "lg" "Lg" false "Q1") [BreakPoint.mk "web" "Web" true "Q2"]).
  reflexivity.
Defined.

(** Against C7 as stated: with "gt-xs" and "gt-sm" both true,
    [activeOverlaps] lists "gt-sm" before "gt-xs". *)
Lemma activeOverlaps_lists_last_range_first :
  MediaMonitor.activeOverlaps window_q1_q2 (snd (monitor_over ranges_gt))
                              (fst (monitor_over ranges_gt))
    = [BreakPoint.mk "gt-sm" "GtSm" true "Q2"; BreakPoint.mk "gt-xs" "GtXs" true "Q1"] /\
  Spec.activeOverlaps window_q1_q2 (snd (monitor_over ranges_gt)) ranges_gt
    = [BreakPoint.mk "gt-xs" "GtXs" true "Q1"; BreakPoint.mk "gt-sm" "GtSm" true "Q2"] /\
  MediaMonitor.activeOverlaps window_q1_q2 (snd (monitor_over ranges_gt))
                              (fst (monitor_over ranges_gt))
    <> Spec.activeOverlaps window_q1_q2 (snd (monitor_over ranges_gt)) ranges_gt.
Proof.
  split; [vm_compute; reflexivity|].
  split; [vm_compute; reflexivity|].
  vm_compute. discriminate.
Qed.

Lemma isActive_unknown_input_is_literal_query_witness :
  BreakPointRegistry.findByAlias
    (MediaMonitor._breakpoints (fst (monitor_over ranges_lg_web))) "print" = None /\
  BreakPointRegistry.findByQuery
    (MediaMonitor._breakpoints (fst (monitor_over ranges_lg_web))) "print" = None /\
  MediaMonitor.isActive window_q1_q2 (snd (monitor_over ranges_lg_web))
                        (fst (monitor_over ranges_lg_web)) "print" = false.
Proof.
  split; [reflexivity|]. split; [reflexivity|].
  apply (isActive_unknown_input_is_literal_query window_q1_q2
           (snd (monitor_over ranges_lg_web)) (fst (monitor_over ranges_lg_web)) "print");
    reflexivity.
Defined.

(** ** The stream *)

Section Stream.

Lemma pushed_app (xs ys : list (option MediaChange.t)) :
  pushed (xs ++ ys) = pushed xs ++ pushed ys.
Proof. unfold pushed. apply flat_map_app. Qed.

Lemma pushed_map_Some (vs : list MediaChange.t) : pushed (map Some vs) = vs.
Proof. induction vs as [|v rest IH]; simpl; [reflexivity | rewrite IH; reflexivity]. Qed.

Lemma last_cons_seed {A : Type} (l : list A) (v d : A) :
  List.last (v :: l) d = List.last l v.
Proof.
  revert v d. induction l as [|x rest IH]; intros v d; [reflexivity|].
  change (List.last (v :: x :: rest) d) with (List.last (x :: rest) d).
  rewrite (IH x d), (IH x v). reflexivity.
Qed.

(** [notify_all] of the monitor: the subject is handed the values that are
    not [null], one after the other; nothing else of the monitor changes. *)
Lemma monitor_notify_all (calls : list (option MediaChange.t)) (m : MediaMonitor.t) :
  let m' := fst (MediaMonitor.notify_all m calls) in
  snd (MediaMonitor.notify_all m calls)
    = fan_out (BehaviorSubject.observers (MediaMonitor._source m)) (pushed calls) /\
  BehaviorSubject.observers (MediaMonitor._source m')
    = BehaviorSubject.observers (MediaMonitor._source m) /\
  BehaviorSubject.value (MediaMonitor._source m')
    = List.last (pushed calls) (BehaviorSubject.value (MediaMonitor._source m)) /\
  MediaMonitor._breakpoints m' = MediaMonitor._breakpoints m /\
  MediaMonitor._asyncQueue m' = MediaMonitor._asyncQueue m.
Proof.
  revert m. induction calls as [|c rest IH]; intros m; [simpl; auto|].
  simpl. destruct c as [v|]; simpl.
  - specialize (IH (MediaMonitor.mk (MediaMonitor._breakpoints m) (MediaMonitor._asyncQueue m)
                      (BehaviorSubject.mk v (BehaviorSubject.observers (MediaMonitor._source m))))).
    destruct (MediaMonitor.notify_all _ rest) as [m2 out2].
    simpl in *. destruct IH as (Hout & Hobs & Hval & Hb & Hq).
    rewrite Hout, Hobs, Hval, Hb, Hq. repeat split.
    symmetry. apply last_cons_seed.
  - specialize (IH m). destruct (MediaMonitor.notify_all m rest) as [m2 out2].
    simpl in *. exact IH.
Qed.

Lemma service_notify_all (calls : list (option MediaChange.t)) (s : MediaService.t) :
  let s' := fst (MediaService.notify_all s calls) in
  snd (MediaService.notify_all s calls)
    = fan_out (BehaviorSubject.observers (MediaService.source s)) (pushed calls) /\
  BehaviorSubject.observers (MediaService.source s')
    = BehaviorSubject.observers (MediaService.source s) /\
  BehaviorSubject.value (MediaService.source s')
    = List.last (pushed calls) (BehaviorSubject.value (MediaService.source s)) /\
  MediaService.breakpoints s' = MediaService.breakpoints s /\
  MediaService._asyncQueue s' = MediaService._asyncQueue s.
Proof.
  revert s. induction calls as [|c rest IH]; intros s; [simpl; auto|].
  simpl. destruct c as [v|]; simpl.
  - specialize (IH (MediaService.mk (MediaService.breakpoints s) (MediaService._asyncQueue s)
                      (BehaviorSubject.mk v (BehaviorSubject.observers (MediaService.source s))))).
    destruct (MediaService.notify_all _ rest) as [s2 out2].
    simpl in *. destruct IH as (Hout & Hobs & Hval & Hb & Hq).
    rewrite Hout, Hobs, Hval, Hb, Hq. repeat split.
    symmetry. apply last_cons_seed.
  - specialize (IH s). destruct (MediaService.notify_all s rest) as [s2 out2].
    simpl in *. exact IH.
Qed.

Lemma no_range_with_activation (bps : list BreakPoint.t) (act : list MediaChange.t) :
  (forall c bp, In c act -> In bp bps ->
                MediaChange.mediaQuery c <> BreakPoint.mediaQuery bp) ->
  ChangeQueue.spec_activation bps act = None.
Proof.
  intros Hno. unfold ChangeQueue.spec_activation.
  destruct (ChangeQueue.first_range_with_activation bps act) as [bp|] eqn:Hbp;
    [|reflexivity].
  apply find_some in Hbp. destruct Hbp as [Hin Hhas].
  unfold ChangeQueue.has_activation in Hhas. apply existsb_exists in Hhas.
  destruct Hhas as [c [Hc Heq]]. apply String.eqb_eq in Heq.
  exfalso. exact (Hno c bp Hc Hin Heq).
Qed.

(** The monitor keeps its queue among the reachable states: in [onChange],
    at a flush, through the registrations of the constructor. *)
Lemma monitor_onChange_queue (m : MediaMonitor.t) (c : MediaChange.t) :
  MediaMonitor._asyncQueue (fst (fst (MediaMonitor.onChange m c)))
  = fst (ChangeQueue.onMediaChange (MediaMonitor._asyncQueue m) c).
Proof.
  unfold MediaMonitor.onChange.
  destruct (ChangeQueue.onMediaChange (MediaMonitor._asyncQueue m) c) as [q out].
  destruct (monitor_notify_all (ChangeQueue.notified out)
              (MediaMonitor.mk (MediaMonitor._breakpoints m) q (MediaMonitor._source m)))
    as (_ & _ & _ & _ & Hq).
  destruct (MediaMonitor.notify_all _ _) as [m' ds]. exact Hq.
Qed.

Lemma monitor_onChange_all_reachable (bps : list BreakPoint.t)
    (changes : list MediaChange.t) (m : MediaMonitor.t) :
  ChangeQueue.reachable bps (MediaMonitor._asyncQueue m) ->
  ChangeQueue.reachable bps
    (MediaMonitor._asyncQueue (fst (fst (MediaMonitor.onChange_all m changes)))).
Proof.
  revert m. induction changes as [|c rest IH]; intros m Hm; [exact Hm|].
  simpl.
  pose proof (monitor_onChange_queue m c) as Hq.
  destruct (MediaMonitor.onChange m c) as [[m1 out1] n1]. simpl in Hq.
  specialize (IH m1).
  destruct (MediaMonitor.onChange_all m1 rest) as [[m2 out2] n2]. simpl in *.
  apply IH. rewrite Hq. apply onMediaChange_reachable, Hm.
Qed.

Lemma monitor_flush_reachable (bps : list BreakPoint.t) (m : MediaMonitor.t) :
  ChangeQueue.reachable bps (MediaMonitor._asyncQueue m) ->
  ChangeQueue.reachable bps (MediaMonitor._asyncQueue (fst (MediaMonitor.flush m))).
Proof.
  intros Hm. unfold MediaMonitor.flush.
  pose proof (ChangeQueue.reach_flushed bps _ Hm) as Hf.
  destruct (ChangeQueue.processQueue (MediaMonitor._asyncQueue m)) as [q out].
  destruct (monitor_notify_all (ChangeQueue.notified out)
              (MediaMonitor.mk (MediaMonitor._breakpoints m) q (MediaMonitor._source m)))
    as (_ & _ & _ & _ & Hq).
  rewrite Hq. exact Hf.
Qed.

Lemma monitor_register_reachable (bps : list BreakPoint.t) (w : MatchMedia.Window)
    (self : MatchMedia.Callback) (items : list BreakPoint.t) (mm : MatchMedia.t)
    (m : MediaMonitor.t) :
  ChangeQueue.reachable bps (MediaMonitor._asyncQueue m) ->
  ChangeQueue.reachable bps
    (MediaMonitor._asyncQueue
       (fst (fst (fst (MediaMonitor._registerBreakpoints w self items mm m))))).
Proof.
  revert mm m. induction items as [|bp rest IH]; intros mm m Hm; [exact Hm|].
  simpl.
  destruct (MatchMedia.registerQuery w mm (BreakPoint.mediaQuery bp) self) as [mm1 out].
  pose proof (monitor_onChange_all_reachable bps (MatchMedia.received self out) m Hm) as H1.
  destruct (MediaMonitor.onChange_all m (MatchMedia.received self out)) as [[m1 ds1] n1].
  specialize (IH mm1 m1 H1).
  destruct (MediaMonitor._registerBreakpoints w self rest mm1 m1) as [[[m2 mm2] ds2] n2].
  exact IH.
Qed.

Lemma monitor_new_reachable (mediaQuery0 : string) (w : MatchMedia.Window)
    (self : MatchMedia.Callback) (r : BreakPointRegistry.t) (mm : MatchMedia.t) :
  ChangeQueue.reachable (BreakPointRegistry.items r)
    (MediaMonitor._asyncQueue (fst (fst (fst (MediaMonitor.new mediaQuery0 w self r mm))))).
Proof.
  unfold MediaMonitor.new. apply monitor_register_reachable. simpl.
  apply ChangeQueue.reach_new.
Qed.

(** C4. When no buffered activation is for the query of a registered range,
    the flush of the monitor's queue announces no activation: [_notify] gets
    [null] for it, [_next] drops that, and the subscribers of the stream are
    handed the buffered deactivations and nothing else. *)
Theorem flush_without_registered_activation_is_silent
    (bps : list BreakPoint.t) (m : MediaMonitor.t) :
  ChangeQueue.reachable bps (MediaMonitor._asyncQueue m) ->
  (forall c bp, In c (ChangeQueue._activated (MediaMonitor._asyncQueue m)) -> In bp bps ->
                MediaChange.mediaQuery c <> BreakPoint.mediaQuery bp) ->
  let calls := ChangeQueue.notified
                 (snd (ChangeQueue.processQueue (MediaMonitor._asyncQueue m))) in
  ChangeQueue.activations calls = [] /\
  pushed calls = ChangeQueue._deactivated (MediaMonitor._asyncQueue m) /\
  Forall (fun d => MediaChange.matches d = false) (pushed calls) /\
  snd (MediaMonitor.flush m)
    = fan_out (BehaviorSubject.observers (MediaMonitor._source m))
              (ChangeQueue._deactivated (MediaMonitor._asyncQueue m)).
Proof.
  intros Hreach Hno calls.
  destruct (reachable_invariant bps _ Hreach) as [[Hact Hdeact] Hbps].
  assert (Hcalls : calls = map Some (ChangeQueue._deactivated (MediaMonitor._asyncQueue m))
                           ++ [None]).
  { unfold calls. rewrite processQueue_notified, Hbps, no_range_with_activation by exact Hno.
    reflexivity. }
  assert (Hpushed : pushed calls = ChangeQueue._deactivated (MediaMonitor._asyncQueue m)).
  { rewrite Hcalls, pushed_app, pushed_map_Some. apply app_nil_r. }
  repeat split.
  - rewrite Hcalls, activations_app, activations_deactivated by exact Hdeact. reflexivity.
  - exact Hpushed.
  - rewrite Hpushed. exact Hdeact.
  - unfold MediaMonitor.flush.
    destruct (ChangeQueue.processQueue (MediaMonitor._asyncQueue m)) as [q' out] eqn:Hp.
    destruct (monitor_notify_all (ChangeQueue.notified out)
                (MediaMonitor.mk (MediaMonitor._breakpoints m) q' (MediaMonitor._source m)))
      as (Hout & _).
    rewrite Hout. simpl. unfold calls in Hpushed. simpl in Hpushed.
    rewrite Hpushed. reflexivity.
Qed.

End Stream.

Lemma flush_without_registered_activation_is_silent_witness :
  ChangeQueue.reachable two_ranges (MediaMonitor._asyncQueue monitor_at_flush) /\
  snd (MediaMonitor.flush monitor_at_flush) = [(5, MediaChange.new false "Q1")].
Proof.
  assert (Hreach : ChangeQueue.reachable two_ranges
                     (MediaMonitor._asyncQueue monitor_at_flush)).
  { apply ChangeQueue.reach_armed, ChangeQueue.reach_queued, ChangeQueue.reach_new. }
  split; [exact Hreach|].
  destruct (flush_without_registered_activation_is_silent two_ranges monitor_at_flush Hreach)
    as (_ & _ & _ & Hout).
  - intros c bp [].
  - exact Hout.
Defined.

Section Facade.

Import BehaviorSubject.

Lemma delivered_to_app (who : nat) (xs ys : list Delivery) :
  delivered_to who (xs ++ ys) = delivered_to who xs ++ delivered_to who ys.
Proof. unfold delivered_to. rewrite List.filter_app, map_app. reflexivity. Qed.

Lemma delivered_to_flat_map {A : Type} (who : nat) (f : A -> list Delivery) (l : list A) :
  delivered_to who (flat_map f l) = flat_map (fun x => delivered_to who (f x)) l.
Proof.
  induction l as [|x rest IH]; simpl; [reflexivity|].
  rewrite delivered_to_app, IH. reflexivity.
Qed.

(** Subscribers other than [who] add nothing to what [who] is handed. *)
Lemma delivered_to_others (who : nat) (v : MediaChange.t) (obs : list Subscription) :
  ~ In who (map subscriber obs) ->
  delivered_to who (flat_map (deliver v) obs) = [].
Proof.
  induction obs as [|s rest IH]; simpl; [reflexivity|].
  intros Hnot. rewrite delivered_to_app, IH by tauto.
  unfold deliver. destruct (operators s v); [|reflexivity].
  unfold delivered_to. simpl.
  destruct (Nat.eqb (subscriber s) who) eqn:Heq; [|reflexivity].
  apply Nat.eqb_eq in Heq. tauto.
Qed.

Lemma delivered_to_own (who : nat) (v : MediaChange.t)
    (ops : MediaChange.t -> option MediaChange.t) :
  delivered_to who (deliver v (mkSubscription who ops)) =
  match ops v with Some v' => [v'] | None => [] end.
Proof.
  unfold deliver, delivered_to. simpl.
  destruct (ops v); simpl; [rewrite Nat.eqb_refl|]; reflexivity.
Qed.

Lemma facade_fan_out (s : MediaService.t) (who : nat) (changes : list MediaChange.t) :
  ~ In who (map subscriber (observers (MediaService.source s))) ->
  delivered_to who
    (fan_out (observers (MediaService.source s)
              ++ [mkSubscription who (MediaService._buildObservable s)]) changes)
  = map (MediaService.addAliasInfo s) (List.filter MediaChange.matches changes).
Proof.
  intros Hfresh. unfold fan_out. rewrite delivered_to_flat_map.
  induction changes as [|c rest IH]; simpl; [reflexivity|].
  rewrite flat_map_app, delivered_to_app, delivered_to_others by exact Hfresh.
  simpl. rewrite app_nil_r, delivered_to_own.
  unfold MediaService._buildObservable at 1.
  destruct (MediaChange.matches c); simpl; rewrite IH; reflexivity.
Qed.

(** C9. A subscriber of the facade is handed, for a run of change events
    emitted into the stream, exactly the events with [matches] true, in
    their order and with the registry's alias put in; it is never handed an
    event with [matches] false. *)
Theorem facade_delivers_activations_only
    (s : MediaService.t) (who : nat) (changes : list MediaChange.t) :
  ~ In who (map subscriber (observers (MediaService.source s))) ->
  let s1 := fst (MediaService.subscribe s who) in
  let got := delivered_to who (snd (MediaService.emit_all s1 changes)) in
  got = map (MediaService.addAliasInfo s) (List.filter MediaChange.matches changes) /\
  Forall (fun c => MediaChange.matches c = true) got /\
  map MediaChange.mediaQuery got
    = map MediaChange.mediaQuery (List.filter MediaChange.matches changes).
Proof.
  intros Hfresh s1 got.
  assert (Hgot : got = map (MediaService.addAliasInfo s)
                           (List.filter MediaChange.matches changes)).
  { unfold got, MediaService.emit_all.
    destruct (service_notify_all (map Some changes) s1) as (Hout & _).
    rewrite Hout, pushed_map_Some. apply facade_fan_out, Hfresh. }
  split; [exact Hgot|]. rewrite Hgot. split.
  - apply List.Forall_forall. intros c Hc. apply in_map_iff in Hc.
    destruct Hc as [c0 [<- Hc0]]. apply List.filter_In in Hc0.
    unfold MediaService.addAliasInfo, mergeAlias.
    destruct (MediaService._findByQuery s _); simpl; apply Hc0.
  - rewrite List.map_map. apply map_ext. intros c.
    unfold MediaService.addAliasInfo, mergeAlias.
    destruct (MediaService._findByQuery s _); reflexivity.
Qed.

End Facade.

Lemma facade_delivers_activations_only_witness :
  ~ In 3 (map BehaviorSubject.subscriber
            (BehaviorSubject.observers (MediaService.source service_two_ranges))) /\
  BehaviorSubject.delivered_to 3
    (snd (MediaService.emit_all (fst (MediaService.subscribe service_two_ranges 3))
            [MediaChange.new true "Q1"; MediaChange.new false "Q1";
             MediaChange.new true "Q2"; MediaChange.new true "print"]))
  = [MediaChange.mk true "Q1" "sm" "Sm"; MediaChange.mk true "Q2" "md" "Md";
     MediaChange.new true "print"].
Proof.
  assert (Hfresh : ~ In 3 (map BehaviorSubject.subscriber
                             (BehaviorSubject.observers
                                (MediaService.source service_two_ranges))))
    by (intros []).
  split; [exact Hfresh|].
  exact (proj1 (facade_delivers_activations_only service_two_ranges 3
                  [MediaChange.new true "Q1"; MediaChange.new false "Q1";
                   MediaChange.new true "Q2"; MediaChange.new true "print"] Hfresh)).
Defined.

Section Replay.

Import MatchMedia.

Variable w : Window.

Lemma evaluate_registerQuery (mm : MatchMedia.t) (q0 : string) (cb : Callback) (q : string) :
  evaluate w (fst (registerQuery w mm q0 cb)) q = evaluate w mm q.
Proof.
  unfold evaluate. rewrite registerQuery_registry.
  destruct (String.eqb q0 "") eqn:He; [reflexivity|].
  destruct (String.eqb q0 q) eqn:Hq; [|reflexivity].
  apply String.eqb_eq in Hq. subst q0.
  rewrite matches_addListener. unfold list_for.
  destruct (_registry mm !! q); reflexivity.
Qed.

(** Registering for a query that is empty or reads false calls nothing. *)
Lemma registerQuery_silent (mm : MatchMedia.t) (q : string) (cb : Callback) :
  (q <> "" -> evaluate w mm q = false) ->
  received cb (snd (registerQuery w mm q cb)) = [].
Proof.
  intros Hev. unfold registerQuery.
  destruct (String.eqb q "") eqn:He; [reflexivity|].
  apply String.eqb_neq in He. specialize (Hev He). unfold evaluate in Hev.
  destruct (_registry mm !! q) as [mql|]; simpl snd;
    rewrite matches_addListener, Hev; reflexivity.
Qed.

Lemma monitor_register_silent (self : Callback) (items : list BreakPoint.t)
    (mm : MatchMedia.t) (m : MediaMonitor.t) :
  (forall bp, In bp items -> BreakPoint.mediaQuery bp <> "" ->
              evaluate w mm (BreakPoint.mediaQuery bp) = false) ->
  fst (fst (fst (MediaMonitor._registerBreakpoints w self items mm m))) = m.
Proof.
  revert mm. induction items as [|bp rest IH]; intros mm Hev; [reflexivity|].
  simpl.
  pose proof (registerQuery_silent mm (BreakPoint.mediaQuery bp) self
                (Hev bp (or_introl eq_refl))) as Hsilent.
  pose proof (fun q => evaluate_registerQuery mm (BreakPoint.mediaQuery bp) self q) as Hsame.
  destruct (registerQuery w mm (BreakPoint.mediaQuery bp) self) as [mm1 out].
  simpl in Hsilent, Hsame. rewrite Hsilent. simpl.
  specialize (IH mm1).
  destruct (MediaMonitor._registerBreakpoints w self rest mm1 m) as [[[m2 mm2] ds2] n2].
  simpl in *. apply IH. intros bp' Hin Hne. rewrite Hsame. apply Hev; auto.
Qed.

Lemma service_register_silent (self : Callback) (items : list BreakPoint.t)
    (mm : MatchMedia.t) (s : MediaService.t) :
  (forall bp, In bp items -> BreakPoint.mediaQuery bp <> "" ->
              evaluate w mm (BreakPoint.mediaQuery bp) = false) ->
  fst (fst (fst (MediaService._registerBreakPoints w self items mm s))) = s.
Proof.
  revert mm. induction items as [|bp rest IH]; intros mm Hev; [reflexivity|].
  simpl.
  pose proof (registerQuery_silent mm (BreakPoint.mediaQuery bp) self
                (Hev bp (or_introl eq_refl))) as Hsilent.
  pose proof (fun q => evaluate_registerQuery mm (BreakPoint.mediaQuery bp) self q) as Hsame.
  destruct (registerQuery w mm (BreakPoint.mediaQuery bp) self) as [mm1 out].
  simpl in Hsilent, Hsame. rewrite Hsilent. simpl.
  specialize (IH mm1).
  destruct (MediaService._registerBreakPoints w self rest mm1 s) as [[[s2 mm2] ds2] n2].
  simpl in *. apply IH. intros bp' Hin Hne. rewrite Hsame. apply Hev; auto.
Qed.

End Replay.

(** Against C10 as stated: "Q1" went true and then false; the latest event
    of the stream is the deactivation, and a new subscriber of the facade is
    handed nothing, not even the earlier activation. *)
Lemma facade_subscriber_misses_latest_deactivation :
  let s := fst (fst (MediaService.onChange_all service_two_ranges
                       [MediaChange.new true "Q1"; MediaChange.new false "Q1"])) in
  BehaviorSubject.value (MediaService.source s) = MediaChange.new false "Q1" /\
  snd (MediaService.subscribe s 9) = [].
Proof. split; reflexivity. Qed.

(** C10 (as amended). A new subscriber of the monitor's whole stream is
    handed at once the latest change event of the stream: the last change
    that [_next] was given and that was not [null], whatever [null] calls
    came after it, or the event the stream held before when there was none.
    A new subscriber of the facade is handed that event, with the registry's
    alias put in, when it has [matches] true, and nothing when it has
    [matches] false. When no registered query is true at construction, so
    that nothing has been emitted yet, that event is the seed: [matches]
    true, the query that [MediaChange]'s constructor gives by itself, no
    alias and no suffix (for the facade, as long as no registered range has
    that very query). *)
Theorem subscription_replays_latest_event :
  (forall (m : MediaMonitor.t) (who : nat),
     snd (MediaMonitor.subscribe m None who)
       = [(who, BehaviorSubject.value (MediaMonitor._source m))]) /\
  (forall (s : MediaService.t) (who : nat),
     snd (MediaService.subscribe s who)
       = if MediaChange.matches (BehaviorSubject.value (MediaService.source s))
         then [(who, MediaService.addAliasInfo s
                       (BehaviorSubject.value (MediaService.source s)))]
         else []) /\
  (forall (m : MediaMonitor.t) (calls : list (option MediaChange.t)),
     BehaviorSubject.value (MediaMonitor._source (fst (MediaMonitor.notify_all m calls)))
       = List.last (pushed calls) (BehaviorSubject.value (MediaMonitor._source m))) /\
  (forall (s : MediaService.t) (calls : list (option MediaChange.t)),
     BehaviorSubject.value (MediaService.source (fst (MediaService.notify_all s calls)))
       = List.last (pushed calls) (BehaviorSubject.value (MediaService.source s))) /\
  (forall (m : MediaMonitor.t) (calls : list (option MediaChange.t)) (who : nat),
     snd (MediaMonitor.subscribe (fst (MediaMonitor.notify_all m calls)) None who)
       = [(who, List.last (pushed calls)
                          (BehaviorSubject.value (MediaMonitor._source m)))]) /\
  (forall (s : MediaService.t) (calls : list (option MediaChange.t)) (who : nat),
     snd (MediaService.subscribe (fst (MediaService.notify_all s calls)) who)
       = if MediaChange.matches
              (List.last (pushed calls) (BehaviorSubject.value (MediaService.source s)))
         then [(who, MediaService.addAliasInfo s
                       (List.last (pushed calls)
                                  (BehaviorSubject.value (MediaService.source s))))]
         else []) /\
  (forall (m : MediaMonitor.t) (who : nat),
     snd (MediaMonitor.subscribe (fst (MediaMonitor.flush m)) None who)
       = [(who, List.last
                  (pushed (ChangeQueue.notified
                             (snd (ChangeQueue.processQueue (MediaMonitor._asyncQueue m)))))
                  (BehaviorSubject.value (MediaMonitor._source m)))]) /\
  (forall (mediaQuery0 : string) (w : MatchMedia.Window) (self : MatchMedia.Callback)
          (r : BreakPointRegistry.t) (mm : MatchMedia.t) (who : nat),
     (forall bp, In bp r -> BreakPoint.mediaQuery bp <> "" ->
                 MatchMedia.evaluate w mm (BreakPoint.mediaQuery bp) = false) ->
     snd (MediaMonitor.subscribe
            (fst (fst (fst (MediaMonitor.new mediaQuery0 w self r mm)))) None who)
       = [(who, MediaChange.mk true mediaQuery0 "" "")] /\
     (BreakPointRegistry.findByQuery r mediaQuery0 = None ->
      snd (MediaService.subscribe
             (fst (fst (fst (MediaService.new mediaQuery0 w self r mm)))) who)
        = [(who, MediaChange.mk true mediaQuery0 "" "")])).
Proof.
  assert (Hmon : forall (m : MediaMonitor.t) (who : nat),
             snd (MediaMonitor.subscribe m None who)
             = [(who, BehaviorSubject.value (MediaMonitor._source m))])
    by reflexivity.
  assert (Hsvc : forall (s : MediaService.t) (who : nat),
             snd (MediaService.subscribe s who)
             = if MediaChange.matches (BehaviorSubject.value (MediaService.source s))
               then [(who, MediaService.addAliasInfo s
                             (BehaviorSubject.value (MediaService.source s)))]
               else []).
  { intros s who. unfold MediaService.subscribe, BehaviorSubject.subscribe,
      BehaviorSubject.deliver, MediaService._buildObservable. simpl.
    destruct (MediaChange.matches _); reflexivity. }
  assert (Hmval : forall (m : MediaMonitor.t) (calls : list (option MediaChange.t)),
             BehaviorSubject.value
               (MediaMonitor._source (fst (MediaMonitor.notify_all m calls)))
             = List.last (pushed calls) (BehaviorSubject.value (MediaMonitor._source m))).
  { intros m calls. apply (monitor_notify_all calls m). }
  assert (Hsval : forall (s : MediaService.t) (calls : list (option MediaChange.t)),
             BehaviorSubject.value
               (MediaService.source (fst (MediaService.notify_all s calls)))
             = List.last (pushed calls) (BehaviorSubject.value (MediaService.source s))).
  { intros s calls. apply (service_notify_all calls s). }
  split; [exact Hmon|]. split; [exact Hsvc|]. split; [exact Hmval|].
  split; [exact Hsval|]. split; [|split; [|split]].
  - intros m calls who. rewrite Hmon, Hmval. reflexivity.
  - intros s calls who. rewrite Hsvc, Hsval.
    destruct (service_notify_all calls s) as (_ & _ & _ & Hb & _).
    unfold MediaService.addAliasInfo, MediaService._findByQuery. rewrite Hb.
    reflexivity.
  - intros m who. rewrite Hmon. unfold MediaMonitor.flush.
    destruct (ChangeQueue.processQueue (MediaMonitor._asyncQueue m)) as [q out].
    rewrite Hmval. reflexivity.
  - intros q0 w self r mm who Hfalse. split.
    + rewrite Hmon. unfold MediaMonitor.new.
      rewrite monitor_register_silent by exact Hfalse. reflexivity.
    + intros Hnone. rewrite Hsvc. unfold MediaService.new.
      rewrite service_register_silent by exact Hfalse. simpl.
      unfold MediaService.addAliasInfo, MediaService._findByQuery. simpl.
      unfold BreakPointRegistry.items. rewrite Hnone. reflexivity.
Qed.

Lemma subscription_replays_latest_event_witness :
  (forall bp, In bp two_ranges -> BreakPoint.mediaQuery bp <> "" ->
              MatchMedia.evaluate window_none MatchMedia.new (BreakPoint.mediaQuery bp)
              = false) /\
  BreakPointRegistry.findByQuery two_ranges "all" = None /\
  snd (MediaMonitor.subscribe
         (fst (fst (fst (MediaMonitor.new "all" window_none 1 two_ranges MatchMedia.new))))
         None 9)
    = [(9, MediaChange.mk true "all" "" "")] /\
  snd (MediaService.subscribe service_two_ranges 9)
    = [(9, MediaChange.mk true "all" "" "")] /\
  snd (MediaMonitor.subscribe (fst (MediaMonitor.flush monitor_at_flush)) None 9)
    = [(9, MediaChange.new false "Q1")] /\
  snd (MediaService.subscribe
         (fst (MediaService.notify_all service_two_ranges
                 [Some (MediaChange.new true "Q1"); Some (MediaChange.new false "Q1");
                  None])) 9)
    = [].
Proof.
  assert (Hfalse : forall bp, In bp two_ranges -> BreakPoint.mediaQuery bp <> "" ->
             MatchMedia.evaluate window_none MatchMedia.new (BreakPoint.mediaQuery bp)
             = false).
  { intros bp [<-|[<-|[]]] _; reflexivity. }
  split; [exact Hfalse|]. split; [reflexivity|].
  destruct subscription_replays_latest_event
    as (_ & _ & _ & _ & _ & Hfacade & Hflush & Hseed).
  destruct (Hseed "all" window_none 1 two_ranges MatchMedia.new 9 Hfalse) as [Hm Hs].
  split; [exact Hm|]. split; [exact (Hs eq_refl)|].
  split; [exact (Hflush monitor_at_flush 9)|].
  exact (Hfacade service_two_ranges
           [Some (MediaChange.new true "Q1"); Some (MediaChange.new false "Q1"); None] 9).
Defined.

(** ** The queue over time *)

Section QueueOverTime.

Import ChangeQueue.

Lemma spec_activation_single (bps : list BreakPoint.t) (c : MediaChange.t) :
  spec_activation bps [c] = if knows bps (MediaChange.mediaQuery c) then Some c else None.
Proof.
  unfold spec_activation, first_range_with_activation, knows, has_activation.
  induction bps as [|bp rest IH]; simpl; [reflexivity|].
  destruct (String.eqb (MediaChange.mediaQuery c) (BreakPoint.mediaQuery bp)) eqn:Hq; simpl.
  - rewrite Hq. reflexivity.
  - exact IH.
Qed.

Lemma spec_activation_nil (bps : list BreakPoint.t) : spec_activation bps [] = None.
Proof.
  unfold spec_activation, first_range_with_activation, has_activation.
  induction bps as [|bp rest IH]; simpl; [reflexivity | exact IH].
Qed.

Lemma count_timers_processQueue (q : t) : count_timers (snd (processQueue q)) = 0.
Proof.
  unfold processQueue, count_timers. simpl. rewrite List.filter_app. simpl.
  rewrite app_nil_r.
  induction (_deactivated q) as [|d rest IH]; simpl; [reflexivity | exact IH].
Qed.

Lemma idle_eq (q : t) :
  idle q -> q = mk (enableAsync q) (_breakpoints q) [] [] false.
Proof. destruct q. unfold idle. simpl. intros (-> & -> & ->). reflexivity. Qed.

(** X1. With [enableAsync] off and nothing pending, one [onMediaChange]
    flushes the change by itself: a deactivation is announced, followed by
    the [null] of the missing activation; an activation is announced when a
    range has its query and replaced by [null] otherwise; no timer is armed
    and the queue is as it was before the call. *)
Theorem onMediaChange_flushes_at_once (q : ChangeQueue.t) (c : MediaChange.t) :
  enableAsync q = false ->
  idle q ->
  fst (onMediaChange q c) = q /\
  notified (snd (onMediaChange q c)) =
    (if MediaChange.matches c
     then [if knows (_breakpoints q) (MediaChange.mediaQuery c) then Some c else None]
     else [Some c; None]) /\
  pushed (notified (snd (onMediaChange q c))) = let_through (_breakpoints q) c /\
  count_timers (snd (onMediaChange q c)) = 0.
Proof.
  intros Hsync Hidle.
  rewrite onMediaChange_sync by (try exact Hsync; apply Hidle).
  assert (Hn : notified (snd (processQueue (arm (_queueChanges q c)))) =
               if MediaChange.matches c
               then [if knows (_breakpoints q) (MediaChange.mediaQuery c)
                     then Some c else None]
               else [Some c; None]).
  { rewrite processQueue_notified. destruct Hidle as (Hd & Ha & _).
    unfold _queueChanges. destruct (MediaChange.matches c); simpl; rewrite Hd, Ha; simpl.
    - rewrite spec_activation_single. reflexivity.
    - rewrite spec_activation_nil. reflexivity. }
  split; [|split; [exact Hn|split]].
  - clear Hn. destruct q as [async bps deact act deb].
    unfold idle in Hidle. simpl in Hsync, Hidle.
    destruct Hidle as (-> & -> & ->). subst async.
    unfold processQueue, _queueChanges. destruct (MediaChange.matches c); reflexivity.
  - rewrite Hn. unfold let_through.
    destruct (MediaChange.matches c); [|reflexivity].
    destruct (knows _ _); reflexivity.
  - apply count_timers_processQueue.
Qed.

(** While a flush is pending, changes are buffered and nothing else
    happens. *)
Lemma burst_while_pending (cs : list MediaChange.t) (q : t) :
  _debouncing q = true ->
  onMediaChange_all q cs =
  (mk (enableAsync q) (_breakpoints q)
      (_deactivated q ++ List.filter (fun c => negb (MediaChange.matches c)) cs)
      (_activated q ++ List.filter MediaChange.matches cs) true,
   []).
Proof.
  revert q. induction cs as [|c rest IH]; intros q Hd.
  - simpl. rewrite !app_nil_r. destruct q. simpl in Hd. subst. reflexivity.
  - simpl. unfold onMediaChange.
    assert (Hd' : _debouncing (_queueChanges q c) = true).
    { unfold _queueChanges. destruct (MediaChange.matches c); exact Hd. }
    rewrite Hd'. simpl. rewrite (IH _ Hd').
    unfold _queueChanges. destruct (MediaChange.matches c); simpl;
      rewrite <- ?app_assoc; reflexivity.
Qed.

(** X2. With [enableAsync] on and nothing pending, a burst of changes
    announces nothing and arms one timer, whatever its length; the flush
    that timer runs announces the deactivations of the burst in arrival
    order, then the one activation chosen among those of the burst, and
    leaves the queue as it was before the burst. *)
Theorem deferred_burst_is_one_flush
    (q : ChangeQueue.t) (c : MediaChange.t) (cs : list MediaChange.t) :
  enableAsync q = true ->
  idle q ->
  let burst := onMediaChange_all q (c :: cs) in
  notified (snd burst) = [] /\
  count_timers (snd burst) = 1 /\
  notified (snd (processQueue (fst burst))) =
    map Some (List.filter (fun e => negb (MediaChange.matches e)) (c :: cs))
    ++ [spec_activation (_breakpoints q) (List.filter MediaChange.matches (c :: cs))] /\
  fst (processQueue (fst burst)) = q.
Proof.
  intros Hasync Hidle burst.
  assert (Hburst : burst =
            (mk true (_breakpoints q)
                (List.filter (fun e => negb (MediaChange.matches e)) (c :: cs))
                (List.filter MediaChange.matches (c :: cs)) true,
             [SetTimeout])).
  { unfold burst. simpl onMediaChange_all. unfold onMediaChange.
    destruct Hidle as (Hd & Ha & Hdeb).
    assert (Hdeb' : _debouncing (_queueChanges q c) = false).
    { unfold _queueChanges. destruct (MediaChange.matches c); exact Hdeb. }
    assert (Has' : enableAsync (arm (_queueChanges q c)) = true).
    { unfold _queueChanges. destruct (MediaChange.matches c); exact Hasync. }
    rewrite Hdeb'. simpl negb. cbv iota. rewrite Has'.
    rewrite burst_while_pending by reflexivity.
    unfold _queueChanges. simpl List.filter.
    destruct (MediaChange.matches c); simpl; rewrite Hd, Ha, Hasync; reflexivity. }
  rewrite Hburst. cbn [fst snd].
  split; [reflexivity|]. split; [reflexivity|]. split.
  - rewrite processQueue_notified. reflexivity.
  - rewrite (idle_eq q Hidle) at 2. rewrite Hasync. reflexivity.
Qed.

Lemma _queueChanges_flags (q : t) (c : MediaChange.t) :
  _debouncing (_queueChanges q c) = _debouncing q /\
  enableAsync (_queueChanges q c) = enableAsync q.
Proof. unfold _queueChanges. destruct (MediaChange.matches c); split; reflexivity. Qed.

Lemma onMediaChange_pending (q : t) (c : MediaChange.t) :
  _debouncing q = true -> onMediaChange q c = (_queueChanges q c, []).
Proof.
  intros Hd. unfold onMediaChange.
  rewrite (proj1 (_queueChanges_flags q c)), Hd. reflexivity.
Qed.

Lemma onMediaChange_deferred (q : t) (c : MediaChange.t) :
  _debouncing q = false -> enableAsync q = true ->
  onMediaChange q c = (arm (_queueChanges q c), [SetTimeout]).
Proof.
  intros Hd Ha. unfold onMediaChange.
  rewrite (proj1 (_queueChanges_flags q c)), Hd. simpl.
  rewrite (proj2 (_queueChanges_flags q c)), Ha. reflexivity.
Qed.

(** X3. Over any run of the queue (changes coming in, armed timers firing,
    [enableAsync] assigned at any time) a timer is armed exactly while
    [_debouncing] is set, and never a second one; whenever no flush is
    pending both buffers are empty, so no change waits without a flush to
    come. *)
Theorem run_keeps_one_pending_flush (bps : list BreakPoint.t) (r : QueueRun.t) :
  QueueRun.runs bps r ->
  QueueRun.timers r = (if _debouncing (QueueRun.queue r) then 1 else 0) /\
  (_debouncing (QueueRun.queue r) = false -> idle (QueueRun.queue r)) /\
  reachable bps (QueueRun.queue r).
Proof.
  induction 1 as [|r r' Hr IH Hstep].
  - simpl. repeat split. apply reach_new.
  - destruct IH as (Htimers & Hidle & Hreach).
    destruct Hstep as [r c|r n Hn|r b]; simpl.
    + split; [|split; [|apply onMediaChange_reachable, Hreach]];
        destruct (_debouncing (QueueRun.queue r)) eqn:Hdeb; simpl in Htimers.
      * rewrite onMediaChange_pending by exact Hdeb. simpl.
        rewrite (proj1 (_queueChanges_flags _ c)), Hdeb.
        unfold count_timers. simpl. lia.
      * destruct (enableAsync (QueueRun.queue r)) eqn:Hasync.
        -- rewrite onMediaChange_deferred by assumption.
           unfold count_timers. simpl. lia.
        -- rewrite onMediaChange_sync by assumption.
           rewrite count_timers_processQueue. simpl. lia.
      * rewrite onMediaChange_pending by exact Hdeb. simpl.
        rewrite (proj1 (_queueChanges_flags _ c)), Hdeb. discriminate.
      * destruct (enableAsync (QueueRun.queue r)) eqn:Hasync.
        -- rewrite onMediaChange_deferred by assumption. simpl. discriminate.
        -- rewrite onMediaChange_sync by assumption. intros _. repeat split.
    + split; [|split; [|apply reach_flushed, Hreach]].
      * rewrite Hn in Htimers.
        destruct (_debouncing (QueueRun.queue r)); simpl in Htimers; lia.
      * intros _. repeat split.
    + split; [exact Htimers|]. split; [exact Hidle|].
      apply reach_enableAsync, Hreach.
Qed.

(** X4. A flush uses up the buffers: every change it announces was in one of
    them, both are empty afterwards and no flush is pending, so the
    activations that were not chosen are gone and a second flush would
    announce nothing but the [null] of a missing activation. *)
Theorem flush_uses_up_buffers (q : ChangeQueue.t) :
  (forall c, In (Some c) (notified (snd (processQueue q))) ->
             In c (_deactivated q) \/ In c (_activated q)) /\
  idle (fst (processQueue q)) /\
  notified (snd (processQueue (fst (processQueue q)))) = [None].
Proof.
  repeat split.
  - rewrite processQueue_notified. intros c Hin. apply in_app_or in Hin.
    destruct Hin as [Hd|[Ha|[]]].
    + apply in_map_iff in Hd. destruct Hd as [d [Heq Hd]]. injection Heq as ->. auto.
    + apply spec_activation_inv in Ha. destruct Ha as [bp (_ & _ & Hin)]. auto.
  - rewrite processQueue_notified. simpl. rewrite spec_activation_nil. reflexivity.
Qed.

End QueueOverTime.

(** ** The adapter over a series of registrations *)

Section AdapterFacts.

Import MatchMedia.

Variable w : Window.

Lemma matches_buildMQL (w' : Window) (q : string) :
  matches w' (_buildMQL w q) = reads w w' q.
Proof. unfold _buildMQL, reads. destruct (canListen w); reflexivity. Qed.

(** Every list a reachable adapter holds sits under a query that is not
    empty and reads what a list built for that query reads. *)
Lemma adapter_lists (mm : MatchMedia.t) :
  adapter_reachable w mm ->
  forall q mql, _registry mm !! q = Some mql ->
                q <> "" /\ forall w', matches w' mql = reads w w' q.
Proof.
  induction 1 as [|mm q0 cb Hmm IH]; intros q mql Hl.
  - simpl in Hl. rewrite lookup_empty in Hl. discriminate.
  - rewrite registerQuery_registry in Hl.
    destruct (String.eqb q0 "") eqn:He; [exact (IH q mql Hl)|].
    destruct (String.eqb q0 q) eqn:Hq; [|exact (IH q mql Hl)].
    apply String.eqb_eq in Hq. subst q0. apply String.eqb_neq in He.
    injection Hl as <-. split; [exact He|].
    intros w'. rewrite matches_addListener. unfold list_for.
    destruct (_registry mm !! q) as [mql0|] eqn:Hl0.
    + apply (IH q mql0 Hl0).
    + apply matches_buildMQL.
Qed.

Lemma evaluate_reads (mm : MatchMedia.t) (q : string) :
  adapter_reachable w mm -> evaluate w mm q = reads w w q.
Proof.
  intros Hmm. unfold evaluate.
  destruct (_registry mm !! q) as [mql|] eqn:Hl.
  - apply (adapter_lists mm Hmm q mql Hl).
  - apply matches_buildMQL.
Qed.

(** The adapter never answers for the empty string, and a query it answers
    true for is one that reads true in the sense of [evaluate]. *)
Lemma empty_query_never_active (mm : MatchMedia.t) (w' : Window) :
  adapter_reachable w mm -> isActive w' mm "" = false.
Proof.
  intros Hmm. unfold isActive.
  destruct (_registry mm !! "") as [mql|] eqn:Hl; [|reflexivity].
  destruct (adapter_lists mm Hmm "" mql Hl) as [Hne _]. congruence.
Qed.

Lemma isActive_true_reads_true (mm : MatchMedia.t) (q : string) :
  adapter_reachable w mm -> isActive w mm q = true ->
  q <> "" /\ evaluate w mm q = true.
Proof.
  intros Hmm Hactive. unfold isActive in Hactive. unfold evaluate.
  destruct (_registry mm !! q) as [mql|] eqn:Hl; [|discriminate].
  split; [apply (adapter_lists mm Hmm q mql Hl) | exact Hactive].
Qed.

Lemma registerAll_reachable (calls : list (string * Callback)) (mm : MatchMedia.t) :
  adapter_reachable w mm -> adapter_reachable w (fst (registerAll w mm calls)).
Proof.
  revert mm. induction calls as [|[q cb] rest IH]; intros mm Hmm; [exact Hmm|].
  rewrite registerAll_cons. simpl fst. apply IH, adapter_registered, Hmm.
Qed.

Lemma registered_for_existsb (q : string) (calls : list (string * Callback)) :
  existsb (fun c => String.eqb (fst c) q) calls =
  match registered_for q calls with [] => false | _ => true end.
Proof.
  induction calls as [|[q0 cb] rest IH]; [reflexivity|].
  rewrite registered_for_cons. simpl.
  destruct (String.eqb q0 q); [reflexivity | exact IH].
Qed.

Lemma matches_attach (w' : Window) (mql : MediaQueryList) (q : string)
    (cbs : list Callback) :
  matches w' (attach mql q cbs) = matches w' mql.
Proof.
  revert mql. induction cbs as [|cb rest IH]; intros mql; [reflexivity|].
  rewrite attach_cons, IH. apply matches_addListener.
Qed.

(** X5. After any series of registrations on a new adapter, [isActive]
    answers for a query exactly when a listener was registered for it and it
    is not the empty string, and the answer is then what the browser reads
    for the query at the time of asking (where lists cannot listen: whether
    the query is "all"); for every other string it answers false, whatever
    the browser reads. *)
Theorem isActive_after_registrations
    (calls : list (string * Callback)) (w' : Window) (q : string) :
  isActive w' (fst (registerAll w MatchMedia.new calls)) q =
  negb (String.eqb q "") && existsb (fun c => String.eqb (fst c) q) calls
  && (if canListen w then media_matches w' q else String.eqb q "all").
Proof.
  unfold isActive. rewrite registerAll_registry, registered_for_existsb.
  simpl. rewrite lookup_empty.
  destruct (registered_for q calls) as [|cb cbs].
  - rewrite andb_false_r. reflexivity.
  - destruct (String.eqb q "") eqn:He; [reflexivity|].
    simpl. rewrite matches_attach. unfold list_for. simpl. rewrite lookup_empty.
    rewrite matches_buildMQL. unfold reads. rewrite He, orb_false_r. reflexivity.
Qed.

(** X6. Registering a listener makes [isActive] answer for the query with
    what the query reads now, and leaves its answer for every other query as
    it was; for the empty string the call changes nothing; and a second
    registration for the same query builds no second list. *)
Theorem registerQuery_then_isActive
    (mm : MatchMedia.t) (q0 : string) (cb cb' : Callback) (q : string) :
  isActive w (fst (registerQuery w mm q0 cb)) q =
    (if negb (String.eqb q0 "") && String.eqb q0 q
     then evaluate w mm q else isActive w mm q) /\
  registerQuery w mm "" cb = (mm, []) /\
  built (snd (registerQuery w (fst (registerQuery w mm q0 cb)) q0 cb')) = [].
Proof.
  split; [|split].
  - unfold isActive, evaluate. rewrite registerQuery_registry.
    destruct (String.eqb q0 "") eqn:He; [reflexivity|]. simpl.
    destruct (String.eqb q0 q) eqn:Hq; [|reflexivity].
    apply String.eqb_eq in Hq. subst q0.
    rewrite matches_addListener. unfold list_for.
    destruct (_registry mm !! q); reflexivity.
  - reflexivity.
  - rewrite registerQuery_built.
    destruct (String.eqb q0 "") eqn:He; [reflexivity|].
    rewrite registerQuery_registry, He, String.eqb_refl. reflexivity.
Qed.

Lemma registerQuery_calls (mm : MatchMedia.t) (q : string) (cb : Callback) :
  calls_of (snd (registerQuery w mm q cb)) =
  if negb (String.eqb q "") && evaluate w mm q then [(cb, MediaChange.new true q)] else [].
Proof.
  unfold registerQuery, evaluate.
  destruct (String.eqb q "") eqn:He; [reflexivity|]. simpl negb. cbv iota.
  destruct (_registry mm !! q) as [mql|]; simpl snd; rewrite matches_addListener;
    simpl andb.
  - destruct (matches w mql) eqn:Hm; [|reflexivity].
    unfold onMQLEvent. simpl. rewrite matches_addListener, Hm. reflexivity.
  - destruct (matches w (_buildMQL w q)) eqn:Hm; [|reflexivity].
    unfold onMQLEvent. simpl. rewrite matches_addListener, Hm. reflexivity.
Qed.

Lemma calls_of_app (xs ys : list Effect) : calls_of (xs ++ ys) = calls_of xs ++ calls_of ys.
Proof. unfold calls_of. apply flat_map_app. Qed.

(** X7. A series of registrations calls, in registration order, exactly the
    callbacks registered for a query that is not empty and reads true, each
    once and with the activation of its own query; a listener registered for
    a query that reads false, or for the empty string, is not called. *)
Theorem registerAll_announces_true_queries
    (calls : list (string * Callback)) (mm : MatchMedia.t) :
  adapter_reachable w mm ->
  calls_of (snd (registerAll w mm calls)) =
  flat_map (fun c => if negb (String.eqb (fst c) "") && reads w w (fst c)
                     then [(snd c, MediaChange.new true (fst c))] else [])
           calls.
Proof.
  revert mm. induction calls as [|[q cb] rest IH]; intros mm Hmm; [reflexivity|].
  rewrite registerAll_cons. simpl snd. rewrite calls_of_app, registerQuery_calls.
  rewrite (evaluate_reads mm q Hmm).
  rewrite (IH _ (adapter_registered w mm q cb Hmm)). reflexivity.
Qed.

End AdapterFacts.

(** ** The monitor with an idle queue *)

Section MonitorPipeline.

Lemma fan_out_app (obs : list BehaviorSubject.Subscription) (xs ys : list MediaChange.t) :
  fan_out obs (xs ++ ys) = fan_out obs xs ++ fan_out obs ys.
Proof. unfold fan_out. apply flat_map_app. Qed.

Lemma last_app_seed {A : Type} (xs ys : list A) (d : A) :
  List.last (xs ++ ys) d = List.last ys (List.last xs d).
Proof.
  revert d. induction xs as [|x rest IH]; intros d; [reflexivity|].
  rewrite <- app_comm_cons, !last_cons_seed. apply IH.
Qed.

(** What the queue does with one change when nothing is pending and flushes
    are not deferred. *)
Lemma onMediaChange_idle_sync (q : ChangeQueue.t) (c : MediaChange.t) :
  ChangeQueue.enableAsync q = false -> idle q ->
  fst (ChangeQueue.onMediaChange q c) = q /\
  pushed (ChangeQueue.notified (snd (ChangeQueue.onMediaChange q c)))
    = let_through (ChangeQueue._breakpoints q) c /\
  ChangeQueue.count_timers (snd (ChangeQueue.onMediaChange q c)) = 0.
Proof.
  intros Hsync Hidle.
  rewrite onMediaChange_sync by (try exact Hsync; apply Hidle).
  split; [|split].
  - destruct q as [async bps deact act deb].
    unfold idle in Hidle. simpl in Hsync, Hidle.
    destruct Hidle as (-> & -> & ->). subst async.
    unfold ChangeQueue.processQueue, ChangeQueue._queueChanges.
    destruct (MediaChange.matches c); reflexivity.
  - rewrite processQueue_notified. destruct Hidle as (Hd & Ha & _).
    unfold ChangeQueue._queueChanges, let_through.
    destruct (MediaChange.matches c); simpl; rewrite Hd, Ha; simpl.
    + rewrite spec_activation_single. destruct (knows _ _); reflexivity.
    + rewrite spec_activation_nil. reflexivity.
  - apply count_timers_processQueue.
Qed.

(** The monitor's listener on an idle queue: the subject is handed what the
    queue lets through, and the queue is idle again. *)
Lemma monitor_onChange_idle (m : MediaMonitor.t) (c : MediaChange.t) :
  ChangeQueue.enableAsync (MediaMonitor._asyncQueue m) = false ->
  idle (MediaMonitor._asyncQueue m) ->
  let m' := fst (fst (MediaMonitor.onChange m c)) in
  let out := let_through (ChangeQueue._breakpoints (MediaMonitor._asyncQueue m)) c in
  snd (fst (MediaMonitor.onChange m c))
    = fan_out (BehaviorSubject.observers (MediaMonitor._source m)) out /\
  snd (MediaMonitor.onChange m c) = 0 /\
  MediaMonitor._asyncQueue m' = MediaMonitor._asyncQueue m /\
  MediaMonitor._breakpoints m' = MediaMonitor._breakpoints m /\
  BehaviorSubject.observers (MediaMonitor._source m')
    = BehaviorSubject.observers (MediaMonitor._source m) /\
  BehaviorSubject.value (MediaMonitor._source m')
    = List.last out (BehaviorSubject.value (MediaMonitor._source m)).
Proof.
  intros Hsync Hidle.
  destruct (onMediaChange_idle_sync _ c Hsync Hidle) as (Hq & Hpushed & Htimers).
  unfold MediaMonitor.onChange.
  destruct (ChangeQueue.onMediaChange (MediaMonitor._asyncQueue m) c) as [q out].
  simpl in Hq, Hpushed, Htimers. subst q.
  destruct (monitor_notify_all (ChangeQueue.notified out)
              (MediaMonitor.mk (MediaMonitor._breakpoints m) (MediaMonitor._asyncQueue m)
                 (MediaMonitor._source m)))
    as (Hout & Hobs & Hval & Hb & Hqueue).
  destruct (MediaMonitor.notify_all _ _) as [m' ds]. simpl in *.
  rewrite Hpushed in Hout, Hval. repeat split; assumption.
Qed.

Lemma monitor_onChange_all_idle (cs : list MediaChange.t) (m : MediaMonitor.t) :
  ChangeQueue.enableAsync (MediaMonitor._asyncQueue m) = false ->
  idle (MediaMonitor._asyncQueue m) ->
  let m' := fst (fst (MediaMonitor.onChange_all m cs)) in
  let out := flat_map (let_through (ChangeQueue._breakpoints (MediaMonitor._asyncQueue m)))
                      cs in
  snd (fst (MediaMonitor.onChange_all m cs))
    = fan_out (BehaviorSubject.observers (MediaMonitor._source m)) out /\
  snd (MediaMonitor.onChange_all m cs) = 0 /\
  MediaMonitor._asyncQueue m' = MediaMonitor._asyncQueue m /\
  MediaMonitor._breakpoints m' = MediaMonitor._breakpoints m /\
  BehaviorSubject.observers (MediaMonitor._source m')
    = BehaviorSubject.observers (MediaMonitor._source m) /\
  BehaviorSubject.value (MediaMonitor._source m')
    = List.last out (BehaviorSubject.value (MediaMonitor._source m)).
Proof.
  revert m. induction cs as [|c rest IH]; intros m Hsync Hidle.
  - simpl. repeat split.
  - destruct (monitor_onChange_idle m c Hsync Hidle) as (H1 & H2 & H3 & H4 & H5 & H6).
    simpl. destruct (MediaMonitor.onChange m c) as [[m1 ds1] n1]. simpl in *.
    assert (Hsync1 : ChangeQueue.enableAsync (MediaMonitor._asyncQueue m1) = false)
      by (rewrite H3; exact Hsync).
    assert (Hidle1 : idle (MediaMonitor._asyncQueue m1)) by (rewrite H3; exact Hidle).
    destruct (IH m1 Hsync1 Hidle1) as (I1 & I2 & I3 & I4 & I5 & I6).
    destruct (MediaMonitor.onChange_all m1 rest) as [[m2 ds2] n2]. simpl in *.
    rewrite I1, I2, I3, I4, I5, I6, H1, H2, H3, H4, H5, H6.
    rewrite fan_out_app, last_app_seed. repeat split.
Qed.

Lemma delivered_to_whole_stream (m : MediaMonitor.t) (who : nat)
    (obs : list BehaviorSubject.Subscription) (vs : list MediaChange.t) :
  ~ In who (map BehaviorSubject.subscriber obs) ->
  BehaviorSubject.delivered_to who
    (fan_out (obs ++ [BehaviorSubject.mkSubscription who (MediaMonitor.observe m None)]) vs)
  = vs.
Proof.
  intros Hfresh. unfold fan_out. rewrite delivered_to_flat_map.
  induction vs as [|v rest IH]; simpl; [reflexivity|].
  rewrite flat_map_app, delivered_to_app, delivered_to_others by exact Hfresh.
  cbn [flat_map app]. rewrite app_nil_r, delivered_to_own. simpl. rewrite IH.
  reflexivity.
Qed.

(** X8. With flushes not deferred and nothing pending, a subscriber of the
    monitor's whole stream is handed the raw changes one by one in arrival
    order: every deactivation, and every activation for the query of a
    registered range; an activation for any other query is dropped by the
    queue and never reaches the stream. No timer is armed and the queue is
    idle again after each change. *)
Theorem monitor_stream_follows_arrival_order
    (m : MediaMonitor.t) (who : nat) (cs : list MediaChange.t) :
  ChangeQueue.enableAsync (MediaMonitor._asyncQueue m) = false ->
  idle (MediaMonitor._asyncQueue m) ->
  ~ In who (map BehaviorSubject.subscriber
              (BehaviorSubject.observers (MediaMonitor._source m))) ->
  let m1 := fst (MediaMonitor.subscribe m None who) in
  BehaviorSubject.delivered_to who (snd (fst (MediaMonitor.onChange_all m1 cs)))
    = flat_map (let_through (ChangeQueue._breakpoints (MediaMonitor._asyncQueue m))) cs /\
  snd (MediaMonitor.onChange_all m1 cs) = 0 /\
  MediaMonitor._asyncQueue (fst (fst (MediaMonitor.onChange_all m1 cs)))
    = MediaMonitor._asyncQueue m.
Proof.
  intros Hsync Hidle Hfresh m1.
  destruct (monitor_onChange_all_idle cs m1 Hsync Hidle) as (Hout & Hn & Hq & _).
  split; [|split; [exact Hn | exact Hq]].
  rewrite Hout. unfold m1. simpl.
  apply (delivered_to_whole_stream m who _ _ Hfresh).
Qed.

End MonitorPipeline.

(** ** The constructors *)

Section Construction.

Variable w : MatchMedia.Window.
Variable self : MatchMedia.Callback.

Lemma registerQuery_received (mm : MatchMedia.t) (q : string) :
  MatchMedia.received self (snd (MatchMedia.registerQuery w mm q self)) =
  if negb (String.eqb q "") && MatchMedia.evaluate w mm q
  then [MediaChange.new true q] else [].
Proof.
  unfold MatchMedia.registerQuery, MatchMedia.evaluate.
  destruct (String.eqb q "") eqn:He; [reflexivity|]. simpl negb. cbv iota.
  destruct (MatchMedia._registry mm !! q) as [mql|]; simpl snd;
    rewrite matches_addListener; simpl andb.
  - destruct (MatchMedia.matches w mql) eqn:Hm; [|reflexivity].
    unfold MatchMedia.onMQLEvent. simpl.
    rewrite matches_addListener, Hm, Nat.eqb_refl. reflexivity.
  - destruct (MatchMedia.matches w (MatchMedia._buildMQL w q)) eqn:Hm; [|reflexivity].
    unfold MatchMedia.onMQLEvent. simpl.
    rewrite matches_addListener, Hm, Nat.eqb_refl. reflexivity.
Qed.

Lemma knows_in (bps : list BreakPoint.t) (bp : BreakPoint.t) :
  In bp bps -> knows bps (BreakPoint.mediaQuery bp) = true.
Proof.
  intros Hin. unfold knows. apply existsb_exists. exists bp.
  split; [exact Hin | apply String.eqb_refl].
Qed.

Lemma true_at_registration_ext (mm mm1 : MatchMedia.t) (items : list BreakPoint.t) :
  (forall q, MatchMedia.evaluate w mm1 q = MatchMedia.evaluate w mm q) ->
  true_at_registration w mm1 items = true_at_registration w mm items.
Proof.
  intros Hsame. unfold true_at_registration.
  induction items as [|bp rest IH]; simpl; [reflexivity|].
  rewrite Hsame, IH. reflexivity.
Qed.

Lemma monitor_register_idle (items : list BreakPoint.t) (mm : MatchMedia.t)
    (m : MediaMonitor.t) :
  ChangeQueue.enableAsync (MediaMonitor._asyncQueue m) = false ->
  idle (MediaMonitor._asyncQueue m) ->
  (forall bp, In bp items ->
     knows (ChangeQueue._breakpoints (MediaMonitor._asyncQueue m))
           (BreakPoint.mediaQuery bp) = true) ->
  let res := MediaMonitor._registerBreakpoints w self items mm m in
  let m' := fst (fst (fst res)) in
  snd (fst (fst res)) = fst (MatchMedia.registerAll w mm (registrations self items)) /\
  snd (fst res) = fan_out (BehaviorSubject.observers (MediaMonitor._source m))
                          (announced w mm items) /\
  snd res = 0 /\
  MediaMonitor._asyncQueue m' = MediaMonitor._asyncQueue m /\
  MediaMonitor._breakpoints m' = MediaMonitor._breakpoints m /\
  BehaviorSubject.observers (MediaMonitor._source m')
    = BehaviorSubject.observers (MediaMonitor._source m) /\
  BehaviorSubject.value (MediaMonitor._source m')
    = List.last (announced w mm items) (BehaviorSubject.value (MediaMonitor._source m)).
Proof.
  revert mm m. induction items as [|bp rest IH]; intros mm m Hsync Hidle Hknows.
  - simpl. repeat split.
  - set (q := BreakPoint.mediaQuery bp).
    pose proof (registerQuery_received mm q) as Hrecv.
    pose proof (fun q' => evaluate_registerQuery w mm q self q') as Hsame.
    assert (Hlet : forall c, c = MediaChange.new true q ->
              let_through (ChangeQueue._breakpoints (MediaMonitor._asyncQueue m)) c = [c]).
    { intros c ->. unfold let_through. simpl. unfold q.
      rewrite (Hknows bp (or_introl eq_refl)). reflexivity. }
    simpl MediaMonitor._registerBreakpoints. simpl registrations.
    rewrite registerAll_cons. fold q.
    destruct (MatchMedia.registerQuery w mm q self) as [mm1 out] eqn:Hreg.
    simpl in Hrecv, Hsame. cbn [fst snd].
    destruct (monitor_onChange_all_idle (MatchMedia.received self out) m Hsync Hidle)
      as (H1 & H2 & H3 & H4 & H5 & H6).
    destruct (MediaMonitor.onChange_all m (MatchMedia.received self out))
      as [[m1 ds1] n1].
    simpl in H1, H2, H3, H4, H5, H6.
    assert (Hsync1 : ChangeQueue.enableAsync (MediaMonitor._asyncQueue m1) = false)
      by (rewrite H3; exact Hsync).
    assert (Hidle1 : idle (MediaMonitor._asyncQueue m1)) by (rewrite H3; exact Hidle).
    assert (Hknows1 : forall bp', In bp' rest ->
              knows (ChangeQueue._breakpoints (MediaMonitor._asyncQueue m1))
                    (BreakPoint.mediaQuery bp') = true).
    { intros bp' Hin. rewrite H3. apply Hknows. right. exact Hin. }
    destruct (IH mm1 m1 Hsync1 Hidle1 Hknows1) as (I0 & I1 & I2 & I3 & I4 & I5 & I6).
    destruct (MediaMonitor._registerBreakpoints w self rest mm1 m1)
      as [[[m2 mm2] ds2] n2].
    simpl in I0, I1, I2, I3, I4, I5, I6. simpl.
    assert (Hann : announced w mm (bp :: rest) =
                   flat_map (let_through (ChangeQueue._breakpoints
                                            (MediaMonitor._asyncQueue m)))
                            (MatchMedia.received self out)
                   ++ announced w mm1 rest).
    { unfold announced. rewrite (true_at_registration_ext mm mm1 rest Hsame).
      unfold true_at_registration at 1. simpl List.filter. fold q.
      fold (true_at_registration w mm rest). rewrite Hrecv.
      destruct (negb (String.eqb q "") && MatchMedia.evaluate w mm q); simpl.
      - rewrite (Hlet _ eq_refl). reflexivity.
      - reflexivity. }
    rewrite Hann, fan_out_app, last_app_seed.
    rewrite I0, I1, I2, I3, I4, I5, I6, H1, H2, H3, H4, H5, H6.
    repeat split.
Qed.

End Construction.

Section Constructed.

Variable w : MatchMedia.Window.
Variable self : MatchMedia.Callback.

Lemma fan_out_nobody (vs : list MediaChange.t) : fan_out [] vs = [].
Proof. unfold fan_out. induction vs as [|v rest IH]; simpl; [reflexivity | exact IH]. Qed.

Lemma knows_items (r : BreakPointRegistry.t) :
  forall bp, In bp (BreakPointRegistry.items r) ->
             knows (BreakPointRegistry.items r) (BreakPoint.mediaQuery bp) = true.
Proof. intros bp. apply knows_in. Qed.

(** X9. The constructor of the monitor registers the one listener for every
    range, in registry order, and hands each activation announced at
    registration through the queue at once: the monitor it returns has its
    queue idle and not deferring, no timer armed and no subscriber, nobody
    was handed anything, and the latest event of its stream is the activation
    of the last range, in registry order, whose query is not empty and reads
    true (the seed when there is none). *)
Theorem monitor_constructor_state
    (mediaQuery0 : string) (r : BreakPointRegistry.t) (mm : MatchMedia.t) :
  let res := MediaMonitor.new mediaQuery0 w self r mm in
  let m := fst (fst (fst res)) in
  snd (fst (fst res)) = fst (MatchMedia.registerAll w mm (registrations self r)) /\
  snd (fst res) = [] /\
  snd res = 0 /\
  MediaMonitor._breakpoints m = r /\
  MediaMonitor._asyncQueue m = ChangeQueue.new r /\
  BehaviorSubject.observers (MediaMonitor._source m) = [] /\
  BehaviorSubject.value (MediaMonitor._source m)
    = List.last (announced w mm r) (MediaChange.new true mediaQuery0).
Proof.
  intros res m. unfold res, m, MediaMonitor.new.
  destruct (monitor_register_idle w self (BreakPointRegistry.items r) mm
              (MediaMonitor.mk r (ChangeQueue.new (BreakPointRegistry.items r))
                 (BehaviorSubject.new (MediaChange.new true mediaQuery0))))
    as (H0 & H1 & H2 & H3 & H4 & H5 & H6).
  - reflexivity.
  - repeat split.
  - apply knows_items.
  - simpl in H1. rewrite fan_out_nobody in H1. repeat split; assumption.
Qed.

(** X10. The constructor of [MockMediaMonitor] returns what the constructor
    of [MediaMonitor] returns: the queue is not deferring already, so the
    assignment to [enableAsync] changes nothing. *)
Theorem mock_monitor_is_the_monitor
    (mediaQuery0 : string) (r : BreakPointRegistry.t) (mm : MatchMedia.t) :
  MockMediaMonitor.new mediaQuery0 w self r mm = MediaMonitor.new mediaQuery0 w self r mm.
Proof.
  unfold MockMediaMonitor.new, MediaMonitor.new.
  destruct (monitor_register_idle w self (BreakPointRegistry.items r) mm
              (MediaMonitor.mk r (ChangeQueue.new (BreakPointRegistry.items r))
                 (BehaviorSubject.new (MediaChange.new true mediaQuery0))))
    as (_ & _ & _ & Hq & _); [reflexivity | repeat split | apply knows_items |].
  destruct (MediaMonitor._registerBreakpoints _ _ _ _ _) as [[[m mm'] ds] n].
  simpl in Hq. destruct m as [bps q src]. simpl in *. subst q. reflexivity.
Qed.

Lemma registered_for_registrations (q : string) (items : list BreakPoint.t) :
  MatchMedia.registered_for q (registrations self items) =
  repeat self (length (List.filter
                         (fun bp => String.eqb (BreakPoint.mediaQuery bp) q) items)).
Proof.
  induction items as [|bp rest IH]; [reflexivity|].
  simpl registrations. rewrite registered_for_cons. simpl List.filter.
  destruct (String.eqb (BreakPoint.mediaQuery bp) q); simpl; rewrite IH; reflexivity.
Qed.

Lemma registered_lookup (mm : MatchMedia.t) (items : list BreakPoint.t)
    (bp : BreakPoint.t) :
  In bp items -> BreakPoint.mediaQuery bp <> "" ->
  is_Some (MatchMedia._registry
             (fst (MatchMedia.registerAll w mm (registrations self items)))
           !! BreakPoint.mediaQuery bp).
Proof.
  intros Hin Hne. rewrite registerAll_registry, registered_for_registrations.
  assert (Hpos : List.filter
                   (fun bp' => String.eqb (BreakPoint.mediaQuery bp')
                                          (BreakPoint.mediaQuery bp)) items <> []).
  { intros Hnil.
    assert (Hbp : In bp (List.filter
                           (fun bp' => String.eqb (BreakPoint.mediaQuery bp')
                                                  (BreakPoint.mediaQuery bp)) items)).
    { apply List.filter_In. split; [exact Hin | apply String.eqb_refl]. }
    rewrite Hnil in Hbp. destruct Hbp. }
  destruct (List.filter _ items) as [|x xs]; [congruence|]. simpl.
  apply String.eqb_neq in Hne. rewrite Hne. eauto.
Qed.

(** X11. Once the monitor is constructed over an adapter, [isActive] of a
    registered alias (or registered query) whose range has a query that is
    not empty answers what the browser reads for that query at the time of
    asking; where lists cannot listen it answers whether the query is
    "all". *)
Theorem isActive_of_alias_reads_browser
    (mediaQuery0 : string) (r : BreakPointRegistry.t) (mm : MatchMedia.t)
    (w' : MatchMedia.Window) (alias : string) (bp : BreakPoint.t) :
  adapter_reachable w mm ->
  MediaMonitor.lookup r alias = Some bp ->
  BreakPoint.mediaQuery bp <> "" ->
  let res := MediaMonitor.new mediaQuery0 w self r mm in
  MediaMonitor.isActive w' (snd (fst (fst res))) (fst (fst (fst res))) alias =
  if MatchMedia.canListen w
  then MatchMedia.media_matches w' (BreakPoint.mediaQuery bp)
  else String.eqb (BreakPoint.mediaQuery bp) "all".
Proof.
  intros Hmm Hlookup Hne res.
  assert (Hin : In bp r).
  { unfold MediaMonitor.lookup, BreakPointRegistry.findByAlias,
      BreakPointRegistry.findByQuery in Hlookup.
    destruct (List.find _ r) as [b|] eqn:Hf.
    - injection Hlookup as ->. apply find_some in Hf. apply Hf.
    - apply find_some in Hlookup. apply Hlookup. }
  unfold res, MediaMonitor.new.
  destruct (monitor_register_idle w self (BreakPointRegistry.items r) mm
              (MediaMonitor.mk r (ChangeQueue.new (BreakPointRegistry.items r))
                 (BehaviorSubject.new (MediaChange.new true mediaQuery0))))
    as (Hmm' & _ & _ & _ & Hb & _); [reflexivity | repeat split | apply knows_items |].
  destruct (MediaMonitor._registerBreakpoints _ _ _ _ _) as [[[m mm'] ds] n].
  simpl in Hmm', Hb. simpl.
  unfold MediaMonitor.isActive. rewrite Hb, Hlookup. unfold MatchMedia.isActive.
  destruct (registered_lookup mm r bp Hin Hne) as [mql Hl].
  unfold BreakPointRegistry.items in Hmm'. rewrite Hmm', Hl.
  destruct (adapter_lists w _ (registerAll_reachable w (registrations self r) mm Hmm)
              _ _ Hl) as [_ Hreads].
  rewrite Hreads. unfold reads.
  apply String.eqb_neq in Hne. rewrite Hne, orb_false_r. reflexivity.
Qed.

End Constructed.

Section SharedQuery.

Variable w : MatchMedia.Window.
Variable self : MatchMedia.Callback.

Lemma received_own_calls (w' : MatchMedia.Window) (q : string)
    (ls : list MatchMedia.Listener) (cbs : list MatchMedia.Callback) :
  Forall (fun cb => cb = self) cbs ->
  MatchMedia.received self
    (map (fun cb => MatchMedia.onMQLEvent w' (MatchMedia.mkListener cb q)
                      (MatchMedia.Native q ls)) cbs)
  = repeat (MediaChange.new (MatchMedia.media_matches w' q) q) (length cbs).
Proof.
  induction 1 as [|cb rest Hcb _ IH]; [reflexivity|].
  subst cb. simpl. rewrite Nat.eqb_refl. simpl. f_equal. exact IH.
Qed.

(** The calls the browser's change of [q] makes to the constructors'
    listener: one for each range that has the query. *)
Lemma dispatch_to_self (items : list BreakPoint.t) (w' : MatchMedia.Window) (q : string) :
  MatchMedia.canListen w = true -> q <> "" ->
  MatchMedia.received self
    (MatchMedia.dispatch w'
       (fst (MatchMedia.registerAll w MatchMedia.new (registrations self items))) q)
  = repeat (MediaChange.new (MatchMedia.media_matches w' q) q)
           (length (List.filter
                      (fun bp => String.eqb (BreakPoint.mediaQuery bp) q) items)).
Proof.
  intros Hlisten Hne. unfold MatchMedia.dispatch.
  rewrite registerAll_registry, registered_for_registrations.
  simpl. rewrite lookup_empty.
  destruct (length (List.filter _ items)) as [|k]; [reflexivity|].
  apply String.eqb_neq in Hne.
  change (repeat self (S k)) with (self :: repeat self k). cbv iota. rewrite Hne.
  unfold MatchMedia.list_for. simpl MatchMedia._registry. rewrite lookup_empty.
  unfold MatchMedia._buildMQL. rewrite Hlisten, attach_native.
  cbn [MatchMedia.listeners_of app]. rewrite List.map_map.
  rewrite received_own_calls.
  - simpl. rewrite repeat_length. reflexivity.
  - constructor; [reflexivity|]. apply List.Forall_forall. intros x Hx.
    apply repeat_spec in Hx. exact Hx.
Qed.

Lemma flat_map_let_through_repeat (bps : list BreakPoint.t) (c : MediaChange.t) (k : nat) :
  let_through bps c = [c] -> flat_map (let_through bps) (repeat c k) = repeat c k.
Proof.
  intros Hc. induction k as [|k IH]; simpl; [reflexivity|].
  rewrite Hc, IH. reflexivity.
Qed.

(** X12. Ranges that share a query each get their own registration: in a
    browser whose lists can listen, one change of a query calls the
    monitor's listener once for every range of the registry with that
    query, and a subscriber of the whole stream is handed the change that
    many times. *)
Theorem shared_query_is_announced_per_range
    (mediaQuery0 : string) (r : BreakPointRegistry.t)
    (w' : MatchMedia.Window) (q : string) (who : nat) :
  MatchMedia.canListen w = true ->
  q <> "" ->
  let res := MediaMonitor.new mediaQuery0 w self r MatchMedia.new in
  let m1 := fst (MediaMonitor.subscribe (fst (fst (fst res))) None who) in
  let calls := MatchMedia.received self (MatchMedia.dispatch w' (snd (fst (fst res))) q) in
  let change := MediaChange.new (MatchMedia.media_matches w' q) q in
  let k := length (List.filter (fun bp => String.eqb (BreakPoint.mediaQuery bp) q) r) in
  calls = repeat change k /\
  BehaviorSubject.delivered_to who (snd (fst (MediaMonitor.onChange_all m1 calls)))
    = repeat change k.
Proof.
  intros Hlisten Hne res m1 calls change k.
  unfold calls, m1, res, MediaMonitor.new.
  destruct (monitor_register_idle w self (BreakPointRegistry.items r) MatchMedia.new
              (MediaMonitor.mk r (ChangeQueue.new (BreakPointRegistry.items r))
                 (BehaviorSubject.new (MediaChange.new true mediaQuery0))))
    as (Hmm' & _ & _ & Hq & _ & Hobs & _);
    [reflexivity | repeat split | apply knows_items |].
  destruct (MediaMonitor._registerBreakpoints _ _ _ _ _) as [[[m mm'] ds] n].
  simpl in Hmm', Hq, Hobs. cbn [fst snd].
  unfold BreakPointRegistry.items in Hmm'.
  assert (Hcalls : MatchMedia.received self (MatchMedia.dispatch w' mm' q)
                   = repeat change k).
  { rewrite Hmm'. apply dispatch_to_self; assumption. }
  split; [exact Hcalls|]. rewrite Hcalls.
  destruct (monitor_onChange_all_idle (repeat change k)
              (fst (MediaMonitor.subscribe m None who))) as (Hout & _).
  { simpl. rewrite Hq. reflexivity. }
  { simpl. rewrite Hq. repeat split. }
  rewrite Hout. simpl MediaMonitor._source. simpl MediaMonitor._asyncQueue.
  simpl BehaviorSubject.observers. rewrite Hobs, Hq. simpl app.
  rewrite (delivered_to_whole_stream m who [] _ (fun H => H)).
  assert (Hknows : k <> 0 -> knows r q = true).
  { unfold k. intros Hk0. unfold knows. apply existsb_exists.
    destruct (List.filter (fun bp => String.eqb (BreakPoint.mediaQuery bp) q) r)
      as [|bp rest] eqn:Hf; [exfalso; apply Hk0; reflexivity|].
    assert (Hbp : In bp (List.filter
                           (fun bp => String.eqb (BreakPoint.mediaQuery bp) q) r))
      by (rewrite Hf; left; reflexivity).
    apply List.filter_In in Hbp. destruct Hbp as [Hin Heq].
    exists bp. split; [exact Hin|]. rewrite String.eqb_sym. exact Heq. }
  destruct k as [|k']; [reflexivity|].
  apply flat_map_let_through_repeat.
  unfold let_through, change. simpl.
  destruct (MatchMedia.media_matches w' q); [|reflexivity].
  unfold BreakPointRegistry.items. rewrite Hknows by discriminate. reflexivity.
Qed.

End SharedQuery.

(** ** What the streams hand out *)

Section Streams.

Lemma delivered_to_new_subscriber (who : nat) (obs : list BehaviorSubject.Subscription)
    (ops : MediaChange.t -> option MediaChange.t) (vs : list MediaChange.t) :
  ~ In who (map BehaviorSubject.subscriber obs) ->
  BehaviorSubject.delivered_to who
    (fan_out (obs ++ [BehaviorSubject.mkSubscription who ops]) vs)
  = flat_map (fun v => match ops v with Some v' => [v'] | None => [] end) vs.
Proof.
  intros Hfresh. unfold fan_out. rewrite delivered_to_flat_map.
  induction vs as [|v rest IH]; simpl; [reflexivity|].
  rewrite flat_map_app, delivered_to_app, delivered_to_others by exact Hfresh.
  cbn [flat_map app]. rewrite app_nil_r, delivered_to_own, IH. reflexivity.
Qed.

Lemma observe_alias_lets_through (m : MediaMonitor.t) (alias : string)
    (vs : list MediaChange.t) :
  alias <> "" ->
  flat_map (fun v => match MediaMonitor.observe m (Some alias) v with
                     | Some v' => [v']
                     | None => []
                     end) vs
  = map (fun c => mergeAlias c (MediaMonitor.lookup (MediaMonitor._breakpoints m) alias))
        (List.filter
           (fun c => String.eqb (MediaChange.mediaQuery c)
                       (match MediaMonitor.lookup (MediaMonitor._breakpoints m) alias with
                        | Some b => BreakPoint.mediaQuery b
                        | None => alias
                        end)) vs).
Proof.
  intros Hne. apply String.eqb_neq in Hne.
  induction vs as [|c rest IH]; simpl; [reflexivity|].
  rewrite IH. unfold MediaMonitor.observe at 1.
  destruct (MediaMonitor.lookup (MediaMonitor._breakpoints m) alias) as [b|];
    simpl; rewrite Hne;
    destruct (String.eqb (MediaChange.mediaQuery c) _); reflexivity.
Qed.

(** X13. A subscriber of [observe(alias)], for an alias that is not empty,
    is handed every change, activation or deactivation, whose query is the
    query of the range the alias (or query) resolves to, or the alias itself
    taken as a query when it resolves to no range; each carries that range's
    alias and suffix; changes of any other query are withheld. *)
Theorem observe_alias_selects_query
    (m : MediaMonitor.t) (alias : string) (who : nat)
    (calls : list (option MediaChange.t)) :
  alias <> "" ->
  ~ In who (map BehaviorSubject.subscriber
              (BehaviorSubject.observers (MediaMonitor._source m))) ->
  let bp := MediaMonitor.lookup (MediaMonitor._breakpoints m) alias in
  let query := match bp with Some b => BreakPoint.mediaQuery b | None => alias end in
  let m1 := fst (MediaMonitor.subscribe m (Some alias) who) in
  BehaviorSubject.delivered_to who (snd (MediaMonitor.notify_all m1 calls))
  = map (fun c => mergeAlias c bp)
        (List.filter (fun c => String.eqb (MediaChange.mediaQuery c) query)
                     (pushed calls)).
Proof.
  intros Hne Hfresh bp query m1.
  destruct (monitor_notify_all calls m1) as (Hout & _).
  rewrite Hout. unfold m1. simpl.
  rewrite delivered_to_new_subscriber by exact Hfresh.
  apply observe_alias_lets_through, Hne.
Qed.

Lemma find_none_all {A : Type} (p : A -> bool) (l : list A) :
  List.find p l = None -> forall x, In x l -> p x = false.
Proof. intros H x Hx. exact (find_none _ _ H x Hx). Qed.

(** X14. What [active] returns is a range of the registry that is true now;
    when it returns none, no range with an alias is true now and the first
    range is not true; and it fails exactly on the empty registry. *)
Theorem active_returns_a_true_range
    (w : MatchMedia.Window) (mm : MatchMedia.t) (m : MediaMonitor.t) :
  (forall bp, MediaMonitor.active w mm m = MediaMonitor.Returns (Some bp) ->
              In bp (MediaMonitor.breakpoints m) /\
              MatchMedia.isActive w mm (BreakPoint.mediaQuery bp) = true) /\
  (MediaMonitor.active w mm m = MediaMonitor.Returns None ->
   forall bp, In bp (MediaMonitor.breakpoints m) -> named_and_true w mm bp = false) /\
  (MediaMonitor.active w mm m = MediaMonitor.TypeError <->
   MediaMonitor.breakpoints m = []).
Proof.
  unfold MediaMonitor.active. rewrite fold_active_find.
  destruct (List.find (named_and_true w mm) (rev (MediaMonitor.breakpoints m)))
    as [found|] eqn:Hfind.
  - split; [|split].
    + intros bp Hbp. injection Hbp as <-.
      apply find_some in Hfind. destruct Hfind as [Hin Htrue].
      split; [apply in_rev, Hin|].
      unfold named_and_true in Htrue. apply andb_true_iff in Htrue. apply Htrue.
    + discriminate.
    + split; [discriminate|]. intros Hnil. rewrite Hnil in Hfind. discriminate.
  - destruct (MediaMonitor.breakpoints m) as [|first rest] eqn:Hbps.
    + split; [discriminate|]. split; [discriminate|]. split; reflexivity.
    + split; [|split].
      * intros bp Hbp.
        destruct (MatchMedia.isActive w mm (BreakPoint.mediaQuery first)) eqn:Hfirst;
          [|discriminate].
        injection Hbp as <-. split; [left; reflexivity | exact Hfirst].
      * intros _ bp Hin. apply (find_none_all _ _ Hfind). apply in_rev.
        rewrite rev_involutive. exact Hin.
      * split; discriminate.
Qed.

End Streams.

(** ** The service, wired like the monitor *)

Section ServiceWiring.

Lemma service_notify_all_as_monitor (calls : list (option MediaChange.t))
    (s : MediaService.t) :
  MediaMonitor.notify_all (as_monitor s) calls =
  (as_monitor (fst (MediaService.notify_all s calls)),
   snd (MediaService.notify_all s calls)).
Proof.
  revert s. induction calls as [|c rest IH]; intros s; [reflexivity|].
  simpl. destruct c as [v|]; simpl.
  - specialize (IH (MediaService.mk (MediaService.breakpoints s)
                      (MediaService._asyncQueue s)
                      (BehaviorSubject.mk v
                         (BehaviorSubject.observers (MediaService.source s))))).
    unfold as_monitor in IH at 1. simpl in IH. rewrite IH.
    destruct (MediaService.notify_all _ rest) as [s2 out2]. reflexivity.
  - rewrite IH. destruct (MediaService.notify_all s rest) as [s2 out2]. reflexivity.
Qed.

Lemma service_onChange_as_monitor (s : MediaService.t) (c : MediaChange.t) :
  MediaMonitor.onChange (as_monitor s) c =
  (as_monitor (fst (fst (MediaService.onChange s c))),
   snd (fst (MediaService.onChange s c)), snd (MediaService.onChange s c)).
Proof.
  unfold MediaMonitor.onChange, MediaService.onChange. simpl.
  destruct (ChangeQueue.onMediaChange (MediaService._asyncQueue s) c) as [q out].
  pose proof (service_notify_all_as_monitor (ChangeQueue.notified out)
                (MediaService.mk (MediaService.breakpoints s) q (MediaService.source s)))
    as H.
  unfold as_monitor in H at 1. simpl in H. rewrite H.
  destruct (MediaService.notify_all _ _) as [s' ds]. reflexivity.
Qed.

Lemma service_onChange_all_as_monitor (cs : list MediaChange.t) (s : MediaService.t) :
  MediaMonitor.onChange_all (as_monitor s) cs =
  (as_monitor (fst (fst (MediaService.onChange_all s cs))),
   snd (fst (MediaService.onChange_all s cs)), snd (MediaService.onChange_all s cs)).
Proof.
  revert s. induction cs as [|c rest IH]; intros s; [reflexivity|].
  simpl. rewrite service_onChange_as_monitor.
  destruct (MediaService.onChange s c) as [[s1 ds1] n1]. simpl.
  rewrite IH. destruct (MediaService.onChange_all s1 rest) as [[s2 ds2] n2].
  reflexivity.
Qed.

Lemma service_register_as_monitor (w : MatchMedia.Window) (self : MatchMedia.Callback)
    (items : list BreakPoint.t) (mm : MatchMedia.t) (s : MediaService.t) :
  MediaMonitor._registerBreakpoints w self items mm (as_monitor s) =
  (as_monitor (fst (fst (fst (MediaService._registerBreakPoints w self items mm s)))),
   snd (fst (fst (MediaService._registerBreakPoints w self items mm s))),
   snd (fst (MediaService._registerBreakPoints w self items mm s)),
   snd (MediaService._registerBreakPoints w self items mm s)).
Proof.
  revert mm s. induction items as [|bp rest IH]; intros mm s; [reflexivity|].
  simpl.
  destruct (MatchMedia.registerQuery w mm (BreakPoint.mediaQuery bp) self) as [mm1 out].
  rewrite service_onChange_all_as_monitor.
  destruct (MediaService.onChange_all s (MatchMedia.received self out)) as [[s1 ds1] n1].
  simpl. rewrite IH.
  destruct (MediaService._registerBreakPoints w self rest mm1 s1) as [[[s2 mm2] ds2] n2].
  reflexivity.
Qed.

(** X15. The constructor of the service leaves the adapter, its queue and
    its subject as the constructor of the monitor leaves them over the same
    registry; both hand out the same deliveries and arm the same timers
    while registering. *)
Theorem service_constructor_is_monitor_constructor
    (mediaQuery0 : string) (w : MatchMedia.Window) (self : MatchMedia.Callback)
    (r : BreakPointRegistry.t) (mm : MatchMedia.t) :
  MediaMonitor.new mediaQuery0 w self r mm =
  (as_monitor (fst (fst (fst (MediaService.new mediaQuery0 w self r mm)))),
   snd (fst (fst (MediaService.new mediaQuery0 w self r mm))),
   snd (fst (MediaService.new mediaQuery0 w self r mm)),
   snd (MediaService.new mediaQuery0 w self r mm)).
Proof.
  unfold MediaMonitor.new, MediaService.new.
  rewrite <- service_register_as_monitor. reflexivity.
Qed.

Lemma announced_matches (w : MatchMedia.Window) (mm : MatchMedia.t)
    (items : list BreakPoint.t) (seed : MediaChange.t) :
  MediaChange.matches seed = true ->
  MediaChange.matches (List.last (announced w mm items) seed) = true.
Proof.
  intros Hseed. unfold announced.
  induction (true_at_registration w mm items) as [|bp rest IH]; [exact Hseed|].
  simpl map. rewrite last_cons_seed.
  destruct rest as [|bp' rest']; [reflexivity|].
  simpl map in *. rewrite last_cons_seed in IH. rewrite last_cons_seed. exact IH.
Qed.

Lemma service_constructor_state_aux
    (mediaQuery0 : string) (w : MatchMedia.Window) (self : MatchMedia.Callback)
    (r : BreakPointRegistry.t) (mm : MatchMedia.t) :
  let s := fst (fst (fst (MediaService.new mediaQuery0 w self r mm))) in
  MediaService.breakpoints s = r /\
  BehaviorSubject.value (MediaService.source s)
    = List.last (announced w mm r) (MediaChange.new true mediaQuery0).
Proof.
  intros s.
  destruct (monitor_register_idle w self (BreakPointRegistry.items r) mm
              (MediaMonitor.mk r (ChangeQueue.new (BreakPointRegistry.items r))
                 (BehaviorSubject.new (MediaChange.new true mediaQuery0))))
    as (_ & _ & _ & _ & Hb & _ & Hval);
    [reflexivity | repeat split | apply knows_in |].
  pose proof (service_register_as_monitor w self (BreakPointRegistry.items r) mm
                (MediaService.mk r (ChangeQueue.new (BreakPointRegistry.items r))
                   (BehaviorSubject.new (MediaChange.new true mediaQuery0)))) as Hconv.
  unfold as_monitor in Hconv at 1. simpl in Hconv. rewrite Hconv in Hb, Hval.
  simpl in Hb, Hval. split; assumption.
Qed.

(** X16. A subscriber of the facade that arrives after construction is
    handed at once the activation of the last range, in registry order,
    whose query is not empty and read true at construction, carrying the
    alias and suffix of the first range that has this query; when no range
    was true it is handed the seed. *)
Theorem facade_late_subscriber_gets_last_true_range
    (mediaQuery0 : string) (w : MatchMedia.Window) (self : MatchMedia.Callback)
    (r : BreakPointRegistry.t) (mm : MatchMedia.t) (who : nat) :
  let s := fst (fst (fst (MediaService.new mediaQuery0 w self r mm))) in
  let latest := List.last (announced w mm r) (MediaChange.new true mediaQuery0) in
  snd (MediaService.subscribe s who) =
  [(who, mergeAlias latest
           (BreakPointRegistry.findByQuery r (MediaChange.mediaQuery latest)))].
Proof.
  intros s latest.
  pose proof (service_constructor_state_aux mediaQuery0 w self r mm) as H.
  fold s in H. destruct H as (Hb & Hval).
  unfold MediaService.subscribe, BehaviorSubject.subscribe, BehaviorSubject.deliver,
    MediaService._buildObservable. simpl.
  rewrite Hval.
  rewrite (announced_matches w mm r (MediaChange.new true mediaQuery0) eq_refl).
  unfold MediaService.addAliasInfo, MediaService._findByQuery. rewrite Hb. reflexivity.
Qed.

End ServiceWiring.

Section FacadePipeline.

Lemma filter_matches_let_through (bps : list BreakPoint.t) (cs : list MediaChange.t) :
  List.filter MediaChange.matches (flat_map (let_through bps) cs) =
  List.filter (fun c => MediaChange.matches c && knows bps (MediaChange.mediaQuery c)) cs.
Proof.
  induction cs as [|c rest IH]; simpl; [reflexivity|].
  rewrite List.filter_app, IH. unfold let_through.
  destruct (MediaChange.matches c) eqn:Hm; simpl.
  - destruct (knows bps (MediaChange.mediaQuery c)); simpl; [rewrite Hm|]; reflexivity.
  - rewrite Hm. reflexivity.
Qed.

(** X17. With flushes not deferred and nothing pending, a subscriber of the
    facade is handed, for the raw changes coming in, exactly the activations
    whose query is the query of a range of the queue's list, in arrival
    order and with the registry's alias put in; deactivations, and
    activations of any other query, never reach it. *)
Theorem facade_hands_out_registered_activations
    (s : MediaService.t) (who : nat) (cs : list MediaChange.t) :
  ChangeQueue.enableAsync (MediaService._asyncQueue s) = false ->
  idle (MediaService._asyncQueue s) ->
  ~ In who (map BehaviorSubject.subscriber
              (BehaviorSubject.observers (MediaService.source s))) ->
  let s1 := fst (MediaService.subscribe s who) in
  BehaviorSubject.delivered_to who (snd (fst (MediaService.onChange_all s1 cs)))
  = map (MediaService.addAliasInfo s)
        (List.filter
           (fun c => MediaChange.matches c
                     && knows (ChangeQueue._breakpoints (MediaService._asyncQueue s))
                              (MediaChange.mediaQuery c)) cs).
Proof.
  intros Hsync Hidle Hfresh s1.
  pose proof (service_onChange_all_as_monitor cs s1) as Hconv.
  destruct (monitor_onChange_all_idle cs (as_monitor s1) Hsync Hidle) as (Hout & _).
  rewrite Hconv in Hout. simpl in Hout. rewrite Hout.
  rewrite (facade_fan_out s who _ Hfresh). rewrite filter_matches_let_through.
  reflexivity.
Qed.

End FacadePipeline.

(** ** The properties above, tried on the scenarios *)

Lemma onMediaChange_flushes_at_once_witness :
  ChangeQueue.enableAsync (ChangeQueue.new two_ranges) = false /\
  idle (ChangeQueue.new two_ranges) /\
  fst (ChangeQueue.onMediaChange (ChangeQueue.new two_ranges) (MediaChange.new true "Q2"))
    = ChangeQueue.new two_ranges /\
  ChangeQueue.notified
    (snd (ChangeQueue.onMediaChange (ChangeQueue.new two_ranges)
            (MediaChange.new true "Q2")))
    = [Some (MediaChange.new true "Q2")].
Proof.
  assert (Hidle : idle (ChangeQueue.new two_ranges)) by (repeat split).
  split; [reflexivity|]. split; [exact Hidle|].
  destruct (onMediaChange_flushes_at_once (ChangeQueue.new two_ranges)
              (MediaChange.new true "Q2") eq_refl Hidle) as (Hq & Hn & _).
  split; [exact Hq | exact Hn].
Defined.

Lemma deferred_burst_is_one_flush_witness :
  ChangeQueue.enableAsync queue_deferring = true /\
  idle queue_deferring /\
  ChangeQueue.notified
    (snd (ChangeQueue.processQueue
            (fst (onMediaChange_all queue_deferring
                    [MediaChange.new true "Q2"; MediaChange.new false "Q1";
                     MediaChange.new true "Q1"]))))
    = [Some (MediaChange.new false "Q1"); Some (MediaChange.new true "Q1")].
Proof.
  assert (Hidle : idle queue_deferring) by (repeat split).
  split; [reflexivity|]. split; [exact Hidle|].
  destruct (deferred_burst_is_one_flush queue_deferring (MediaChange.new true "Q2")
              [MediaChange.new false "Q1"; MediaChange.new true "Q1"] eq_refl Hidle)
    as (_ & _ & Hflush & _).
  exact Hflush.
Defined.

Lemma run_keeps_one_pending_flush_witness :
  QueueRun.runs two_ranges
    (QueueRun.mk (fst (ChangeQueue.onMediaChange queue_deferring
                         (MediaChange.new true "Q1"))) 1) /\
  QueueRun.timers
    (QueueRun.mk (fst (ChangeQueue.onMediaChange queue_deferring
                         (MediaChange.new true "Q1"))) 1) = 1.
Proof.
  assert (Hruns : QueueRun.runs two_ranges
                    (QueueRun.mk (fst (ChangeQueue.onMediaChange queue_deferring
                                         (MediaChange.new true "Q1"))) 1)).
  { apply (QueueRun.runs_step two_ranges
             (QueueRun.mk queue_deferring 0)).
    - apply (QueueRun.runs_step two_ranges (QueueRun.mk (ChangeQueue.new two_ranges) 0)).
      + apply QueueRun.runs_new.
      + apply (QueueRun.step_enableAsync
                 (QueueRun.mk (ChangeQueue.new two_ranges) 0) true).
    - apply (QueueRun.step_change (QueueRun.mk queue_deferring 0)
               (MediaChange.new true "Q1")). }
  split; [exact Hruns|].
  exact (proj1 (run_keeps_one_pending_flush two_ranges _ Hruns)).
Defined.

Lemma registerAll_announces_true_queries_witness :
  adapter_reachable window_q1_q2 MatchMedia.new /\
  calls_of (snd (MatchMedia.registerAll window_q1_q2 MatchMedia.new
                   [("Q1", 1); ("Q3", 2); ("", 3); ("Q2", 4)]))
    = [(1, MediaChange.new true "Q1"); (4, MediaChange.new true "Q2")].
Proof.
  split; [apply adapter_new|].
  exact (registerAll_announces_true_queries window_q1_q2
           [("Q1", 1); ("Q3", 2); ("", 3); ("Q2", 4)] MatchMedia.new
           (adapter_new window_q1_q2)).
Defined.

Lemma monitor_stream_follows_arrival_order_witness :
  ChangeQueue.enableAsync (MediaMonitor._asyncQueue monitor_idle) = false /\
  idle (MediaMonitor._asyncQueue monitor_idle) /\
  ~ In 5 (map BehaviorSubject.subscriber
            (BehaviorSubject.observers (MediaMonitor._source monitor_idle))) /\
  BehaviorSubject.delivered_to 5
    (snd (fst (MediaMonitor.onChange_all
                 (fst (MediaMonitor.subscribe monitor_idle None 5))
                 [MediaChange.new true "Q1"; MediaChange.new true "print";
                  MediaChange.new false "Q1"])))
    = [MediaChange.new true "Q1"; MediaChange.new false "Q1"].
Proof.
  assert (Hidle : idle (MediaMonitor._asyncQueue monitor_idle)) by (repeat split).
  assert (Hfresh : ~ In 5 (map BehaviorSubject.subscriber
                             (BehaviorSubject.observers
                                (MediaMonitor._source monitor_idle))))
    by (intros []).
  split; [reflexivity|]. split; [exact Hidle|]. split; [exact Hfresh|].
  exact (proj1 (monitor_stream_follows_arrival_order monitor_idle 5
                  [MediaChange.new true "Q1"; MediaChange.new true "print";
                   MediaChange.new false "Q1"] eq_refl Hidle Hfresh)).
Defined.

Lemma isActive_of_alias_reads_browser_witness :
  adapter_reachable window_none MatchMedia.new /\
  MediaMonitor.lookup two_ranges "md" = Some (BreakPoint.mk "md" "Md" false "Q2") /\
  "Q2" <> "" /\
  MediaMonitor.isActive window_q1_q2
    (snd (fst (fst (MediaMonitor.new "all" window_none 1 two_ranges MatchMedia.new))))
    (fst (fst (fst (MediaMonitor.new "all" window_none 1 two_ranges MatchMedia.new))))
    "md" = true.
Proof.
  split; [apply adapter_new|]. split; [reflexivity|]. split; [discriminate|].
  apply (isActive_of_alias_reads_browser window_none 1 "all" two_ranges MatchMedia.new
           window_q1_q2 "md" (BreakPoint.mk "md" "Md" false "Q2")
           (adapter_new window_none) eq_refl).
  discriminate.
Defined.

Lemma shared_query_is_announced_per_range_witness :
  MatchMedia.canListen window_none = true /\
  "Q1" <> "" /\
  BehaviorSubject.delivered_to 5
    (snd (fst (MediaMonitor.onChange_all
       (fst (MediaMonitor.subscribe
               (fst (fst (fst (MediaMonitor.new "all" window_none 1 ranges_shared_query
                                 MatchMedia.new)))) None 5))
       (MatchMedia.received 1
          (MatchMedia.dispatch window_q1_q2
             (snd (fst (fst (MediaMonitor.new "all" window_none 1 ranges_shared_query
                               MatchMedia.new)))) "Q1")))))
    = [MediaChange.new true "Q1"; MediaChange.new true "Q1"].
Proof.
  assert (Hne : "Q1" <> "") by discriminate.
  split; [reflexivity|]. split; [exact Hne|].
  exact (proj2 (shared_query_is_announced_per_range window_none 1 "all"
                  ranges_shared_query window_q1_q2 "Q1" 5 eq_refl Hne)).
Defined.

Lemma observe_alias_selects_query_witness :
  "md" <> "" /\
  ~ In 5 (map BehaviorSubject.subscriber
            (BehaviorSubject.observers (MediaMonitor._source monitor_idle))) /\
  BehaviorSubject.delivered_to 5
    (snd (MediaMonitor.notify_all
            (fst (MediaMonitor.subscribe monitor_idle (Some "md") 5))
            [Some (MediaChange.new true "Q2"); None;
             Some (MediaChange.new false "Q2"); Some (MediaChange.new true "Q1")]))
    = [MediaChange.mk true "Q2" "md" "Md"; MediaChange.mk false "Q2" "md" "Md"].
Proof.
  assert (Hne : "md" <> "") by discriminate.
  assert (Hfresh : ~ In 5 (map BehaviorSubject.subscriber
                             (BehaviorSubject.observers
                                (MediaMonitor._source monitor_idle))))
    by (intros []).
  split; [exact Hne|]. split; [exact Hfresh|].
  exact (observe_alias_selects_query monitor_idle "md" 5
           [Some (MediaChange.new true "Q2"); None;
            Some (MediaChange.new false "Q2"); Some (MediaChange.new true "Q1")]
           Hne Hfresh).
Defined.

Lemma facade_hands_out_registered_activations_witness :
  ChangeQueue.enableAsync (MediaService._asyncQueue service_two_ranges) = false /\
  idle (MediaService._asyncQueue service_two_ranges) /\
  ~ In 3 (map BehaviorSubject.subscriber
            (BehaviorSubject.observers (MediaService.source service_two_ranges))) /\
  BehaviorSubject.delivered_to 3
    (snd (fst (MediaService.onChange_all
                 (fst (MediaService.subscribe service_two_ranges 3))
                 [MediaChange.new true "Q1"; MediaChange.new false "Q1";
                  MediaChange.new true "print"; MediaChange.new true "Q2"])))
    = [MediaChange.mk true "Q1" "sm" "Sm"; MediaChange.mk true "Q2" "md" "Md"].
Proof.
  assert (Hidle : idle (MediaService._asyncQueue service_two_ranges))
    by (repeat split).
  assert (Hfresh : ~ In 3 (map BehaviorSubject.subscriber
                             (BehaviorSubject.observers
                                (MediaService.source service_two_ranges))))
    by (intros []).
  split; [reflexivity|]. split; [exact Hidle|]. split; [exact Hfresh|].
  exact (facade_hands_out_registered_activations service_two_ranges 3
           [MediaChange.new true "Q1"; MediaChange.new false "Q1";
            MediaChange.new true "print"; MediaChange.new true "Q2"]
           eq_refl Hidle Hfresh).
Defined.
